(** * Single-slot Paxos simulation: a shallow embedding of [paxos.py]

    The development follows the Python sources module by module:
    - [main.py]   : [NodeState], [NodeRole], [Proposal];
    - [logger.py] : [PaxosLogEntry], [PaxosLogger], [record_log];
    - [paxos.py]  : the class [PaxosNode] and its methods.

    Python integers are unbounded and are modelled by [Z]; Python strings by
    [string]; the set [received_promises] by a [gset Z]; the dictionary
    [acceptance_counts], keyed by the tuple [(proposal_number, value)], by a
    [gmap (Z * string) Z].  Node objects live in a store ([World]) and are
    referred to by address, so that the proposer that calls [send_accept] is
    the very object that the loop later reaches as a receiver.

    Not modelled: the text written to standard output by [print], the
    [timestamp] field of a log entry (wall-clock time) and the CSV export of
    the logger. *)

From stdpp Require Import gmap strings list pretty.

Open Scope string_scope.
Open Scope list_scope.
Open Scope Z_scope.

(** ** main.py *)

Module main.

Inductive NodeState := UP | DOWN | BLOCKED.

Inductive NodeRole := LEADER | ACCEPTOR.

(** [Enum.value] of the two enumerations. *)
Definition NodeState_value (s : NodeState) : string :=
  match s with UP => "Up" | DOWN => "Down" | BLOCKED => "Blocked" end.

Definition NodeRole_value (r : NodeRole) : string :=
  match r with LEADER => "Leader" | ACCEPTOR => "Acceptor" end.

#[global] Instance NodeState_eq_dec : EqDecision NodeState.
Proof. solve_decision. Defined.

#[global] Instance NodeRole_eq_dec : EqDecision NodeRole.
Proof. solve_decision. Defined.

(** The dataclass [Proposal]. *)
Record Proposal := mkProposal {
  node_id : Z;
  proposal_number : Z;
  value : string;
}.

End main.

Import main.

(** ** Python helpers *)

(** A value stored in an id column of the log: node ids are integers, but
    [send_prepare] writes the string ["N/A"] there when the sender is down. *)
Inductive PyVal :=
| PyInt (z : Z)
| PyStr (s : string).

(** [str(x)] for an integer. *)
Definition str_int (z : Z) : string := pretty z.

(** [str(x)] for [x] either [None] or a string. *)
Definition str_opt (o : option string) : string :=
  match o with
  | None => "None"
  | Some s => s
  end.

(** Truthiness of a string: only the empty string is falsy. *)
Definition truthy (s : string) : bool :=
  match s with
  | EmptyString => false
  | _ => true
  end.

(** Truthiness of [None] or a string. *)
Definition truthy_opt (o : option string) : bool :=
  match o with
  | None => false
  | Some s => truthy s
  end.

(** ** logger.py *)

Module logger.

Record PaxosLogEntry := mkEntry {
  round : Z;
  from_node_id : PyVal;
  from_node_role : string;
  from_node_state : string;
  to_node_id : PyVal;
  to_node_role : string;
  to_node_state : string;
  action : string;
  action_value : string;
  consensus_value : string;
  consensus_reached : bool;
}.

Record PaxosLogger := mkLogger {
  _round : Z;
  entries : list PaxosLogEntry;
}.

(** [PaxosLogger.record_log]: builds an entry stamped with the logger's
    round and appends it.  Every caller in [paxos.py] passes strings for
    [action_value] and [consensus_value], on which the [str(...)] of
    [record_log] is the identity. *)
Definition record_log (self : PaxosLogger)
    (from_id : PyVal) (from_role from_state : string)
    (to_id : PyVal) (to_role to_state : string)
    (act act_value cons_value : string) (reached : bool) : PaxosLogger :=
  let entry :=
    {| round := _round self;
       from_node_id := from_id;
       from_node_role := from_role;
       from_node_state := from_state;
       to_node_id := to_id;
       to_node_role := to_role;
       to_node_state := to_state;
       action := act;
       action_value := act_value;
       consensus_value := cons_value;
       consensus_reached := reached |} in
  {| _round := _round self; entries := entries self ++ [entry] |}.

End logger.

Import logger.

(** ** paxos.py: the class [PaxosNode] *)

(** The attributes of a node.  The attribute [logger] is a reference to the
    logger object shared by the nodes of a cluster; the logger is threaded
    through the methods next to the node. *)
Record PaxosNode := mkNode {
  node_id : Z;
  totalnodecount : Z;
  state : NodeState;
  role : NodeRole;
  last_consensus : option string;
  consensus_reached : bool;
  received_promises : gset Z;
  acceptance_counts : gmap (Z * string) Z;
}.

(** Attribute assignments [self.x = ...]. *)
Definition set_state (st : NodeState) (self : PaxosNode) : PaxosNode :=
  mkNode (node_id self) (totalnodecount self) st (role self)
         (last_consensus self) (consensus_reached self)
         (received_promises self) (acceptance_counts self).

Definition set_last_consensus (v : option string) (self : PaxosNode) : PaxosNode :=
  mkNode (node_id self) (totalnodecount self) (state self) (role self)
         v (consensus_reached self)
         (received_promises self) (acceptance_counts self).

Definition set_consensus_reached (b : bool) (self : PaxosNode) : PaxosNode :=
  mkNode (node_id self) (totalnodecount self) (state self) (role self)
         (last_consensus self) b
         (received_promises self) (acceptance_counts self).

Definition set_received_promises (s : gset Z) (self : PaxosNode) : PaxosNode :=
  mkNode (node_id self) (totalnodecount self) (state self) (role self)
         (last_consensus self) (consensus_reached self)
         s (acceptance_counts self).

Definition set_acceptance_counts (m : gmap (Z * string) Z) (self : PaxosNode) : PaxosNode :=
  mkNode (node_id self) (totalnodecount self) (state self) (role self)
         (last_consensus self) (consensus_reached self)
         (received_promises self) m.

(** [PaxosNode.__init__]: the [role] argument is ignored, every node starts
    as an acceptor that is up. *)
Definition __init__ (node_id : Z) (role : NodeRole) (node_count : Z) : PaxosNode :=
  {| node_id := node_id;
     totalnodecount := node_count;
     state := UP;
     role := ACCEPTOR;
     last_consensus := None;
     consensus_reached := false;
     received_promises := ∅;
     acceptance_counts := ∅ |}.

(** A method of a node reads and writes the node and the shared logger. *)
Definition Method : Type := PaxosNode → PaxosLogger → PaxosNode * PaxosLogger.

(** [PaxosNode.log_state_change] *)
Definition log_state_change : Method := λ self lg,
  (self,
   record_log lg
     (PyInt (node_id self)) (NodeRole_value (role self)) (NodeState_value (state self))
     (PyInt (node_id self)) (NodeRole_value (role self)) (NodeState_value (state self))
     "ConsensusStateUpdate"
     (str_opt (last_consensus self))
     (str_opt (last_consensus self))
     (consensus_reached self)).

(** [PaxosNode.reset_consensus_reached] *)
Definition reset_consensus_reached : Method := λ self lg,
  let self := set_consensus_reached false self in
  log_state_change self lg.

(** [PaxosNode.set_consensus] *)
Definition set_consensus (value : string) : Method := λ self lg,
  if decide (last_consensus self ≠ Some value) then
    let self := set_last_consensus (Some value) self in
    let self := set_consensus_reached true self in
    let '(self, lg) := log_state_change self lg in
    reset_consensus_reached self lg
  else (self, lg).

(** The dictionary returned by [send_promise]. *)
Module Promise.
Record t := mk {
  proposal_number : Z;
  node_id : Z;
  last_consensus : string;
  consensus_achieved : bool;
}.
End Promise.

(** [PaxosNode.send_promise]: returns the promise dictionary, or [None] when
    the node is not up (the method then falls off its end). *)
Definition send_promise (proposal : Proposal)
    (self : PaxosNode) (lg : PaxosLogger) : PaxosNode * PaxosLogger * option Promise.t :=
  if decide (state self = UP) then
    let self :=
      set_received_promises ({[ proposal_number proposal ]} ∪ received_promises self) self in
    let consensus_achieved := bool_decide (last_consensus self ≠ None) in
    let consensus_value :=
      if consensus_achieved then str_opt (last_consensus self) else "None" in
    let lg :=
      record_log lg
        (PyInt (node_id self)) (NodeRole_value (role self)) (NodeState_value (state self))
        (PyInt (main.node_id proposal)) "Unknown" "Unknown"
        "PromiseSend"
        (str_int (proposal_number proposal))
        consensus_value
        consensus_achieved in
    (self, lg,
     Some (Promise.mk (proposal_number proposal) (node_id self)
                      consensus_value consensus_achieved))
  else (self, lg, None).

(** [PaxosNode.receive_prepare]: the dictionary returned by [send_promise]
    is dropped. *)
Definition receive_prepare (proposal : Proposal) : Method := λ self lg,
  if decide (state self = UP) then
    let lg :=
      record_log lg
        (PyInt (main.node_id proposal)) (NodeRole_value (role self)) (NodeState_value (state self))
        (PyInt (node_id self)) (NodeRole_value (role self)) (NodeState_value (state self))
        "PrepareReceive"
        "None"
        (if truthy_opt (last_consensus self) then str_opt (last_consensus self) else "None")
        false in
    if decide (last_consensus self ≠ None) then
      let '(self, lg, _) := send_promise proposal self lg in
      (self,
       record_log lg
         (PyInt (node_id self)) (NodeRole_value (role self)) (NodeState_value (state self))
         (PyInt (main.node_id proposal)) (NodeRole_value (role self)) (NodeState_value (state self))
         "PromiseSend"
         "ExistingConsensus"
         (str_opt (last_consensus self))
         false)
    else
      let '(self, lg, _) := send_promise proposal self lg in
      (self,
       record_log lg
         (PyInt (node_id self)) (NodeRole_value (role self)) (NodeState_value (state self))
         (PyInt (main.node_id proposal)) "Unknown" "Unknown"
         "PromiseSend"
         "NewPromise"
         "None"
         false)
  else (self, lg).

(** The loop of [decide_on_promises_received] over the elements still to be
    visited, with the local dictionary [consensus_count].  The [return]
    inside the loop is the branch that stops the recursion. *)
Fixpoint decide_loop (self : PaxosNode) (majority_needed : Z)
    (todo : list Z) (consensus_count : gmap Z Z) (lg : PaxosLogger) : PaxosLogger :=
  match todo with
  | [] => lg
  | received_proposal :: todo =>
      let value := received_proposal in
      let consensus_count :=
        if decide (value ∉ dom consensus_count)
        then <[value := 0]> consensus_count
        else consensus_count in
      let consensus_count :=
        <[value := consensus_count !!! value + 1]> consensus_count in
      if decide (majority_needed ≤ consensus_count !!! value) then
        record_log lg
          (PyInt (node_id self)) (NodeRole_value (role self)) (NodeState_value (state self))
          (PyInt (node_id self)) (NodeRole_value (role self)) (NodeState_value (state self))
          "ConsensusAchieved"
          (str_int value)
          (str_int value)
          true
      else decide_loop self majority_needed todo consensus_count lg
  end.

(** [PaxosNode.decide_on_promises_received].  Python leaves the iteration
    order of a set unspecified; the model visits [received_promises] in the
    order of [elements], which need not be the order of a Python run.  The
    order decides only which promised ballot the "ConsensusAchieved" entry
    names; the properties below do not depend on it. *)
Definition decide_on_promises_received (proposal : Proposal) : Method := λ self lg,
  let majority_needed := totalnodecount self `div` 2 + 1 in
  (self, decide_loop self majority_needed (elements (received_promises self)) ∅ lg).

(** [PaxosNode.receive_promise]: no test of the node's own state here. *)
Definition receive_promise (proposal : Proposal) : Method := λ self lg,
  let self :=
    set_received_promises ({[ proposal_number proposal ]} ∪ received_promises self) self in
  let lg :=
    record_log lg
      (PyInt (main.node_id proposal)) (NodeRole_value (role self)) (NodeState_value (state self))
      (PyInt (node_id self)) (NodeRole_value (role self)) (NodeState_value (state self))
      "PromiseReceive"
      (str_int (proposal_number proposal))
      (if truthy (value proposal) then value proposal else "None")
      false in
  decide_on_promises_received proposal self lg.

(** [PaxosNode.receive_accept] *)
Definition receive_accept (proposal : Proposal) : Method := λ self lg,
  if decide (state self = UP) then
    let key := (proposal_number proposal, value proposal) in
    let self :=
      match acceptance_counts self !! key with
      | Some count => set_acceptance_counts (<[key := count + 1]> (acceptance_counts self)) self
      | None => set_acceptance_counts (<[key := 1]> (acceptance_counts self)) self
      end in
    let majority := totalnodecount self `div` 2 + 1 in
    let reached := bool_decide (majority ≤ acceptance_counts self !!! key) in
    let lg :=
      record_log lg
        (PyInt (main.node_id proposal)) (NodeRole_value (role self)) (NodeState_value (state self))
        (PyInt (node_id self)) (NodeRole_value (role self)) (NodeState_value (state self))
        "AcceptReceive"
        (value proposal)
        (value proposal)
        reached in
    if reached then
      let self := set_last_consensus (Some (value proposal)) self in
      reset_consensus_reached self lg
    else (self, lg)
  else (self, lg).

(** [PaxosNode.receive_broadcast] *)
Definition receive_broadcast (proposal : Proposal) : Method := λ self lg,
  if decide (state self = UP) then
    let '(self, lg) := set_consensus (value proposal) self lg in
    let lg :=
      record_log lg
        (PyInt (main.node_id proposal)) (NodeRole_value (role self)) (NodeState_value (state self))
        (PyInt (node_id self)) (NodeRole_value (role self)) (NodeState_value (state self))
        "BroadcastReceive"
        (value proposal)
        (value proposal)
        true in
    (set_last_consensus (Some (value proposal)) self, lg)
  else (self, lg).

(** [PaxosNode.go_down]: the body is [pass]. *)
Definition go_down : Method := λ self lg, (self, lg).

(** ** The store: node objects and the shared logger *)

(** A cluster is a list of node objects, addressed by position, and the one
    logger they all write to.  The dictionary [nodes] that the driver passes
    to [send_prepare] and [send_accept] is used through [nodes.values()] only:
    it is modelled by the list of the addresses of its values, in insertion
    order. *)
Record World := mkWorld {
  heap : list PaxosNode;
  log : PaxosLogger;
}.

(** A method call on the object at address [a].  An address outside the store
    does not correspond to any Python reference; the call is then a no-op. *)
Definition call (a : nat) (m : Method) (w : World) : World :=
  match heap w !! a with
  | Some self =>
      let '(self, lg) := m self (log w) in
      {| heap := <[a := self]> (heap w); log := lg |}
  | None => w
  end.

(** A [record_log] whose arguments are read from the objects [self] and
    [node] as they are now in the store. *)
Definition log_about (self node : nat)
    (entry : PaxosNode → PaxosNode → PaxosLogger → PaxosLogger) (w : World) : World :=
  match heap w !! self, heap w !! node with
  | Some me, Some target => {| heap := heap w; log := entry me target (log w) |}
  | _, _ => w
  end.

(** The state of the object at an address, as a test [x.state == UP]. *)
Definition is_up (w : World) (a : nat) : bool :=
  match heap w !! a with
  | Some n => bool_decide (state n = UP)
  | None => false
  end.

(** Body of the loop of [send_prepare]. *)
Definition send_prepare_body (self : nat) (proposal : Proposal) (w : World) (node : nat) : World :=
  if is_up w node then
    let w := call node (receive_prepare proposal) w in
    log_about self node (λ me target lg,
      record_log lg
        (PyInt (node_id me)) (NodeRole_value (role me)) (NodeState_value (state me))
        (PyInt (node_id target)) (NodeRole_value (role target)) (NodeState_value (state target))
        "PrepareSend"
        (str_int (proposal_number proposal))
        (if truthy_opt (last_consensus me) then str_opt (last_consensus me) else "None")
        false) w
  else
    log_about self node (λ me target lg,
      record_log lg
        (PyInt (node_id me)) (NodeRole_value (role me)) (NodeState_value (state me))
        (PyInt (node_id target)) (NodeRole_value (role target)) "DOWN"
        "PrepareNotSent"
        (str_int (proposal_number proposal))
        (if truthy_opt (last_consensus me) then str_opt (last_consensus me) else "None")
        false) w.

(** [PaxosNode.send_prepare], called on the object at address [self]. *)
Definition send_prepare (self : nat) (nodes : list nat) (proposal : Proposal) (w : World) : World :=
  if is_up w self then
    foldl (send_prepare_body self proposal) w nodes
  else
    log_about self self (λ me _ lg,
      record_log lg
        (PyInt (node_id me)) (NodeRole_value (role me)) "DOWN"
        (PyStr "N/A") "N/A" "N/A"
        "PrepareNotSent"
        "N/A"
        "N/A"
        false) w.

(** Body of the loop of [send_accept]: a node that is not up is skipped
    without a log entry. *)
Definition send_accept_body (self : nat) (proposal : Proposal) (w : World) (node : nat) : World :=
  if is_up w node then
    let w :=
      log_about self node (λ me target lg,
        record_log lg
          (PyInt (node_id me)) (NodeRole_value (role me)) (NodeState_value (state me))
          (PyInt (node_id target)) (NodeRole_value (role target)) (NodeState_value (state target))
          "AcceptSend"
          (str_int (proposal_number proposal))
          (value proposal)
          false) w in
    call node (receive_accept proposal) w
  else w.

(** [PaxosNode.send_accept], called on the object at address [self]. *)
Definition send_accept (self : nat) (nodes : list nat) (proposal : Proposal) (w : World) : World :=
  if is_up w self then
    foldl (send_accept_body self proposal) w nodes
  else w.

(** ** Executions *)

(** What a driver can do to one node: call one of its methods, or assign its
    [state] attribute (the tests and examples inject failures that way). *)
Inductive Call :=
| CSetConsensus (value : string)
| CResetConsensusReached
| CLogStateChange
| CReceivePrepare (proposal : Proposal)
| CSendPromise (proposal : Proposal)
| CReceivePromise (proposal : Proposal)
| CDecideOnPromisesReceived (proposal : Proposal)
| CReceiveAccept (proposal : Proposal)
| CReceiveBroadcast (proposal : Proposal)
| CGoDown
| CAssignState (st : NodeState).

Definition do_call (c : Call) : Method :=
  match c with
  | CSetConsensus v => set_consensus v
  | CResetConsensusReached => reset_consensus_reached
  | CLogStateChange => log_state_change
  | CReceivePrepare p => receive_prepare p
  | CSendPromise p => λ self lg, (send_promise p self lg).1
  | CReceivePromise p => receive_promise p
  | CDecideOnPromisesReceived p => decide_on_promises_received p
  | CReceiveAccept p => receive_accept p
  | CReceiveBroadcast p => receive_broadcast p
  | CGoDown => go_down
  | CAssignState st => λ self lg, (set_state st self, lg)
  end.

(** What a driver can do to a cluster. *)
Inductive Op :=
| OpCall (a : nat) (c : Call)
| OpSendPrepare (self : nat) (nodes : list nat) (proposal : Proposal)
| OpSendAccept (self : nat) (nodes : list nat) (proposal : Proposal).

Definition step (w : World) (o : Op) : World :=
  match o with
  | OpCall a c => call a (do_call c) w
  | OpSendPrepare self nodes p => send_prepare self nodes p w
  | OpSendAccept self nodes p => send_accept self nodes p w
  end.

Definition run (ops : list Op) (w : World) : World := foldl step w ops.

(** The calls a single node goes through, and the node they leave. *)
Definition node_call (n : PaxosNode) (c : Call) : PaxosNode :=
  (do_call c n (mkLogger 0 [])).1.

Definition node_calls (cs : list Call) (n : PaxosNode) : PaxosNode :=
  foldl node_call n cs.

(** A cluster as the tests build it: [k] nodes with ids [1..k], each
    constructed with [node_count], and a logger for round [r]. *)
Definition make_cluster (r : Z) (k : nat) (node_count : Z) : World :=
  {| heap := (λ i : nat, __init__ (Z.of_nat i + 1) ACCEPTOR node_count) <$> seq 0 k;
     log := mkLogger r [] |}.

(** ** Notions of the specification read off the node's attributes *)

(** The number of acceptances that decides, as [receive_accept] and
    [decide_on_promises_received] compute it from [totalnodecount]. *)
Definition quorum_size (n : PaxosNode) : Z := totalnodecount n `div` 2 + 1.

(** The acceptances a node has counted for a key; an absent key counts 0. *)
Definition acceptances (n : PaxosNode) (key : Z * string) : Z :=
  default 0 (acceptance_counts n !! key).

(** The largest element of a list of ballots, [None] for the empty list. *)
Definition max_ballot (l : list Z) : option Z :=
  foldr (λ b acc, Some (match acc with None => b | Some m => Z.max b m end)) None l.

(** The code keeps no watermark attribute.  The ballots a node has promised
    are the proposal numbers in [received_promises]; the highest promised
    ballot is the largest of them, and [None] plays the sentinel of a node
    that has promised nothing. *)
Definition highest_promised (n : PaxosNode) : option Z :=
  max_ballot (elements (received_promises n)).

(** The order on ballots extended with the sentinel, which is below every
    ballot. *)
Definition ballot_le (a b : option Z) : Prop :=
  match a, b with
  | None, _ => True
  | Some _, None => False
  | Some x, Some y => x ≤ y
  end.

Definition ballot_lt (a b : option Z) : Prop :=
  match a, b with
  | None, None => False
  | None, Some _ => True
  | Some _, None => False
  | Some x, Some y => x < y
  end.

#[global] Instance ballot_le_dec a b : Decision (ballot_le a b).
Proof. destruct a, b; simpl; apply _. Defined.

#[global] Instance ballot_lt_dec a b : Decision (ballot_lt a b).
Proof. destruct a, b; simpl; apply _. Defined.

(** The value a call carries to a node, when it carries one that the node
    may record as decided. *)
Definition call_value (c : Call) : option string :=
  match c with
  | CSetConsensus v => Some v
  | CReceiveAccept p => Some (value p)
  | CReceiveBroadcast p => Some (value p)
  | _ => None
  end.

(** The calls an operation on the cluster can make a node go through. *)
Definition emits (o : Op) (c : Call) : Prop :=
  match o with
  | OpCall _ c' => c = c'
  | OpSendPrepare _ _ p => c = CReceivePrepare p
  | OpSendAccept _ _ p => c = CReceiveAccept p
  end.

(** The value an operation on the cluster carries to the nodes. *)
Definition op_value (o : Op) : option string :=
  match o with
  | OpCall _ c => call_value c
  | OpSendPrepare _ _ _ => None
  | OpSendAccept _ _ p => Some (value p)
  end.

(** The Accepts of a key among the calls a node has gone through. *)
Definition is_accept_of (key : Z * string) (c : Call) : bool :=
  match c with
  | CReceiveAccept p => bool_decide ((proposal_number p, value p) = key)
  | _ => false
  end.

Definition accepts_received (key : Z * string) (cs : list Call) : Z :=
  Z.of_nat (length (filter (λ c, is_accept_of key c = true) cs)).


(** The acceptances the drivers add up over the nodes of the cluster
    ([total_acceptances] in the tests and examples). *)
Definition total_acceptances (key : Z * string) (w : World) : Z :=
  foldr Z.add 0 ((λ n, acceptances n key) <$> heap w).

(** A node as the constructor leaves it, as far as decisions go: nothing
    recorded, nothing counted. *)
Definition undecided (n : PaxosNode) : Prop :=
  last_consensus n = None ∧ acceptance_counts n = ∅.

(** The driver of [example_usage.py] on a cluster of three nodes that are
    all up: the proposer at address [self] prepares, the other nodes promise,
    the proposer sends the Accept and the decision is broadcast to the other
    nodes.  With three nodes up the two tests of the driver succeed: two
    promises and three acceptances each reach the majority of 2. *)
Definition example_round (self : nat) (others : list nat) (p : Proposal) : list Op :=
  [OpSendPrepare self (seq 0 3) p] ++
  ((λ a, OpCall a (CSendPromise p)) <$> others) ++
  [OpSendAccept self (seq 0 3) p] ++
  ((λ a, OpCall a (CReceiveBroadcast p)) <$> others).

(** The loop with which the tests and the examples collect promises: each
    node of [others] is asked for its promise, and the dictionaries that are
    not [None] are appended. *)
Definition collect_promises (others : list nat) (p : Proposal) (w : World)
    : World * list Promise.t :=
  foldl (λ '(w, promises) a,
           match heap w !! a with
           | Some n =>
               let '(n, lg, promise) := send_promise p n (log w) in
               ({| heap := <[a := n]> (heap w); log := lg |},
                match promise with
                | Some d => promises ++ [d]
                | None => promises
                end)
           | None => (w, promises)
           end)
        (w, []) others.

(** ** logger.py: the property [round] *)

Inductive Exception :=
| ValueError (msg : string).

(** The outcome of a method that may raise. *)
Inductive Result (A : Type) :=
| Ok (a : A)
| Raise (e : Exception).

Arguments Ok {A} a.
Arguments Raise {A} e.

(** The getter of [PaxosLogger.round]. *)
Definition round_getter (self : PaxosLogger) : Z := _round self.

(** The setter of [PaxosLogger.round]: the value is stored when it is an
    integer that is not negative, and [ValueError] is raised otherwise.  A
    value that is not an integer is represented by [PyStr]; a Python [bool]
    is an [int] and counts as 0 or 1. *)
Definition round_setter (value : PyVal) (self : PaxosLogger) : Result PaxosLogger :=
  match value with
  | PyInt z =>
      if decide (0 ≤ z)
      then Ok {| _round := z; entries := entries self |}
      else Raise (ValueError "Consensus round must be non-negative number")
  | PyStr _ => Raise (ValueError "Consensus round must be non-negative number")
  end.

(** ** Reading the log *)

(** [lg'] is [lg] with entries added at the end, all stamped with the round
    of [lg], which is still the round of [lg']. *)
Definition extends (lg lg' : PaxosLogger) : Prop :=
  _round lg' = _round lg ∧
  ∃ es, entries lg' = entries lg ++ es ∧ Forall (λ e, round e = _round lg) es.

(** The number of entries of a log with a given action. *)
Definition count_action (act : string) (lg : PaxosLogger) : nat :=
  length (filter (λ e, action e = act) (entries lg)).

(** The addresses of a list that hold a node that is up. *)
Definition up_targets (w : World) (nodes : list nat) : list nat :=
  filter (λ a, is_up w a = true) nodes.

(** The proposal number a call makes a node promise, if any. *)
Definition call_ballot (c : Call) : option Z :=
  match c with
  | CReceivePrepare p | CSendPromise p | CReceivePromise p => Some (proposal_number p)
  | _ => None
  end.

(** The proposal number an operation on the cluster makes nodes promise. *)
Definition op_ballot (o : Op) : option Z :=
  match o with
  | OpCall _ c => call_ballot c
  | OpSendPrepare _ _ p => Some (proposal_number p)
  | OpSendAccept _ _ _ => None
  end.

(** The operations that assign the attribute [state] of a node. *)
Definition assigns_state (o : Op) : bool :=
  match o with
  | OpCall _ (CAssignState _) => true
  | _ => false
  end.

(** The actions of the entries of a log, in order. *)
Definition actions (lg : PaxosLogger) : list string := action <$> entries lg.

(** The actions [send_prepare] records for one target: four entries for a
    node that is up, one for a node that is not. *)
Definition prepare_trail (w : World) (a : nat) : list string :=
  if is_up w a then ["PrepareReceive"; "PromiseSend"; "PromiseSend"; "PrepareSend"]
  else if decide (is_Some (heap w !! a)) then ["PrepareNotSent"]
  else [].

(** What one turn of a broadcast loop keeps: which addresses hold a node,
    and which of them are up. *)
Definition same_liveness (w w' : World) : Prop :=
  ∀ a, is_up w' a = is_up w a ∧ (is_Some (heap w' !! a) ↔ is_Some (heap w !! a)).

(** The promise the node at an address gives for a proposal: the dictionary
    of [send_promise] when the node is up, nothing otherwise. *)
Definition promise_of (p : Proposal) (w : World) (a : nat) : option Promise.t :=
  match heap w !! a with
  | Some n =>
      if decide (state n = UP)
      then Some (Promise.mk (proposal_number p) (node_id n)
                            (str_opt (last_consensus n))
                            (bool_decide (last_consensus n ≠ None)))
      else None
  | None => None
  end.

(** * Properties *)

(** ** One node, one call *)

Ltac unfold_methods :=
  unfold node_call, do_call, receive_broadcast, receive_accept, receive_promise,
    decide_on_promises_received, receive_prepare, send_promise, set_consensus,
    reset_consensus_reached, log_state_change, go_down in *.

Ltac split_cases :=
  repeat (case_decide || case_bool_decide ||
          match goal with
          | |- context [match ?x with _ => _ end] => destruct x eqn:?
          end);
  simpl in *.

(** The node a method leaves does not depend on the logger it writes to. *)
Lemma do_call_node (c : Call) (n : PaxosNode) (lg : PaxosLogger) :
  (do_call c n lg).1 = node_call n c.
Proof.
  destruct c; unfold_methods; simpl; split_cases; try done; congruence.
Qed.

(** Attributes no method writes. *)
Lemma node_call_frame (n : PaxosNode) (c : Call) :
  node_id (node_call n c) = node_id n ∧
  totalnodecount (node_call n c) = totalnodecount n ∧
  role (node_call n c) = role n.
Proof. destruct c; unfold_methods; simpl; split_cases; done. Qed.

(** Only an assignment by the driver changes [state]. *)
Lemma node_call_state (n : PaxosNode) (c : Call) :
  (∀ st, c ≠ CAssignState st) → state (node_call n c) = state n.
Proof.
  intros Hc. destruct c; unfold_methods; simpl; split_cases; try done.
  by destruct (Hc st).
Qed.

(** Promises are only ever added. *)
Lemma node_call_promises (n : PaxosNode) (c : Call) :
  received_promises n ⊆ received_promises (node_call n c).
Proof. destruct c; unfold_methods; simpl; split_cases; set_solver. Qed.

(** A call that finds the flag down leaves it down. *)
Lemma node_call_flag (n : PaxosNode) (c : Call) :
  consensus_reached n = false → consensus_reached (node_call n c) = false.
Proof. destruct c; unfold_methods; simpl; split_cases; done. Qed.

(** A call either keeps the recorded value or records the value it carries. *)
Lemma node_call_last_consensus (n : PaxosNode) (c : Call) :
  last_consensus (node_call n c) = last_consensus n ∨
  (is_Some (call_value c) ∧ last_consensus (node_call n c) = call_value c).
Proof.
  destruct c; unfold_methods; simpl; split_cases; eauto.
Qed.

(** ** From an execution of the cluster to the calls one node sees *)

Lemma node_calls_app (cs1 cs2 : list Call) (n : PaxosNode) :
  node_calls (cs1 ++ cs2) n = node_calls cs2 (node_calls cs1 n).
Proof. apply foldl_app. Qed.

Lemma call_heap (a : nat) (m : Method) (w : World) (b : nat) :
  heap (call a m w) !! b =
    if decide (a = b) then (λ n, (m n (log w)).1) <$> heap w !! b else heap w !! b.
Proof.
  unfold call. case_decide as Hab.
  - subst b. destruct (heap w !! a) as [n|] eqn:Hn; simpl; [|by rewrite Hn].
    destruct (m n (log w)) as [n' lg'] eqn:Hm; simpl.
    rewrite list_lookup_insert_eq; [done|]. by eapply lookup_lt_Some.
  - destruct (heap w !! a) as [n|] eqn:Hn; [|done].
    destruct (m n (log w)) as [n' lg'] eqn:Hm; simpl.
    by rewrite list_lookup_insert_ne.
Qed.

Lemma log_about_heap (self node : nat) entry (w : World) :
  heap (log_about self node entry w) = heap w.
Proof. unfold log_about. by repeat case_match. Qed.

(** The store after one turn of either loop. *)
Lemma send_prepare_body_heap (self : nat) (p : Proposal) (w : World) (node b : nat) :
  heap (send_prepare_body self p w node) !! b =
    if is_up w node && bool_decide (node = b)
    then (λ n, node_call n (CReceivePrepare p)) <$> heap w !! b
    else heap w !! b.
Proof.
  unfold send_prepare_body. destruct (is_up w node); simpl;
    rewrite log_about_heap; [|done].
  rewrite call_heap. destruct (decide (node = b)) as [->|Hne].
  - rewrite bool_decide_eq_true_2 by done.
    destruct (heap w !! b); simpl; [|done].
    exact (f_equal Some (do_call_node (CReceivePrepare p) _ _)).
  - by rewrite bool_decide_eq_false_2.
Qed.

Lemma send_accept_body_heap (self : nat) (p : Proposal) (w : World) (node b : nat) :
  heap (send_accept_body self p w node) !! b =
    if is_up w node && bool_decide (node = b)
    then (λ n, node_call n (CReceiveAccept p)) <$> heap w !! b
    else heap w !! b.
Proof.
  unfold send_accept_body. destruct (is_up w node) eqn:Hup; simpl; [|done].
  rewrite call_heap, log_about_heap. destruct (decide (node = b)) as [->|Hne].
  - rewrite bool_decide_eq_true_2 by done.
    destruct (heap w !! b); simpl; [|done].
    exact (f_equal Some (do_call_node (CReceiveAccept p) _ _)).
  - by rewrite bool_decide_eq_false_2.
Qed.

(** A loop that hands every node of [nodes] that is up to the same handler
    [f]: the node at an address goes through [f] once for each occurrence of
    its address in [nodes], and not at all when it is not up. *)
Section broadcast.
Variable body : World → nat → World.
Variable f : PaxosNode → PaxosNode.
Hypothesis body_heap : ∀ w node b,
  heap (body w node) !! b =
    if is_up w node && bool_decide (node = b) then f <$> heap w !! b else heap w !! b.
Hypothesis f_state : ∀ n, state (f n) = state n.

Lemma broadcast_heap (nodes : list nat) (w : World) (a : nat) (n : PaxosNode) :
  heap w !! a = Some n →
  heap (foldl body w nodes) !! a =
    Some (if decide (state n = UP)
          then Nat.iter (count_occ Nat.eq_dec nodes a) f n
          else n).
Proof.
  revert w n. induction nodes as [|x xs IH]; intros w n Hn; simpl.
  - rewrite Hn. by case_decide.
  - destruct (Nat.eq_dec x a) as [->|Hne].
    + assert (is_up w a = bool_decide (state n = UP)) as Hup
        by (unfold is_up; by rewrite Hn).
      destruct (decide (state n = UP)) as [Hst|Hst].
      * rewrite (IH _ (f n)).
        2:{ rewrite body_heap, Hup, bool_decide_eq_true_2 by done.
            rewrite bool_decide_eq_true_2 by done. by rewrite Hn. }
        rewrite decide_True by (by rewrite f_state).
        by rewrite Nat.iter_succ_r.
      * rewrite (IH _ n).
        2:{ rewrite body_heap, Hup, bool_decide_eq_false_2 by done. done. }
        by rewrite decide_False.
    + rewrite (IH _ n); [done|].
      rewrite body_heap, (bool_decide_eq_false_2 (x = a)) by done.
      by rewrite andb_false_r.
Qed.
End broadcast.

Lemma receive_prepare_state (p : Proposal) (n : PaxosNode) :
  state (node_call n (CReceivePrepare p)) = state n.
Proof. by apply node_call_state. Qed.

Lemma receive_accept_state (p : Proposal) (n : PaxosNode) :
  state (node_call n (CReceiveAccept p)) = state n.
Proof. by apply node_call_state. Qed.

(** The node at address [a] after [send_prepare]. *)
Lemma send_prepare_heap (self : nat) (nodes : list nat) (p : Proposal)
    (w : World) (a : nat) (n : PaxosNode) :
  heap w !! a = Some n →
  heap (send_prepare self nodes p w) !! a =
    Some (if is_up w self && bool_decide (state n = UP)
          then Nat.iter (count_occ Nat.eq_dec nodes a)
                        (λ n, node_call n (CReceivePrepare p)) n
          else n).
Proof.
  intros Hn. unfold send_prepare. destruct (is_up w self); simpl.
  - erewrite broadcast_heap; eauto using send_prepare_body_heap, receive_prepare_state.
    by case_decide; case_bool_decide.
  - by rewrite log_about_heap.
Qed.

(** The node at address [a] after [send_accept]. *)
Lemma send_accept_heap (self : nat) (nodes : list nat) (p : Proposal)
    (w : World) (a : nat) (n : PaxosNode) :
  heap w !! a = Some n →
  heap (send_accept self nodes p w) !! a =
    Some (if is_up w self && bool_decide (state n = UP)
          then Nat.iter (count_occ Nat.eq_dec nodes a)
                        (λ n, node_call n (CReceiveAccept p)) n
          else n).
Proof.
  intros Hn. unfold send_accept. destruct (is_up w self); simpl; [|done].
  erewrite broadcast_heap; eauto using send_accept_body_heap, receive_accept_state.
  by case_decide; case_bool_decide.
Qed.

Lemma iter_node_calls (k : nat) (c : Call) (n : PaxosNode) :
  Nat.iter k (λ n, node_call n c) n = node_calls (replicate k c) n.
Proof.
  revert n. induction k as [|k IH]; intros n; [done|].
  rewrite Nat.iter_succ_r, IH. done.
Qed.

(** One operation on the cluster, seen from the node at address [a]. *)
Lemma step_at (o : Op) (w : World) (a : nat) (n : PaxosNode) :
  heap w !! a = Some n →
  ∃ cs, heap (step w o) !! a = Some (node_calls cs n) ∧ Forall (emits o) cs.
Proof.
  intros Hn. destruct o as [b c|self nodes p|self nodes p]; simpl.
  - rewrite call_heap. case_decide.
    + exists [c]. rewrite Hn. simpl. rewrite do_call_node. by repeat constructor.
    + exists []. by rewrite Hn.
  - rewrite (send_prepare_heap _ _ _ _ _ _ Hn).
    destruct (_ && _).
    + eexists. rewrite iter_node_calls. split; [done|].
      by apply Forall_replicate.
    + by exists [].
  - rewrite (send_accept_heap _ _ _ _ _ _ Hn).
    destruct (_ && _).
    + eexists. rewrite iter_node_calls. split; [done|].
      by apply Forall_replicate.
    + by exists [].
Qed.

(** An execution of the cluster, seen from the node at address [a]: the node
    goes through a sequence of calls, each made by one of the operations. *)
Lemma run_at (ops : list Op) (w : World) (a : nat) (n : PaxosNode) :
  heap w !! a = Some n →
  ∃ cs, heap (run ops w) !! a = Some (node_calls cs n) ∧
        Forall (λ c, ∃ o, o ∈ ops ∧ emits o c) cs.
Proof.
  revert w n. induction ops as [|o ops IH]; intros w n Hn.
  - exists []. by split.
  - destruct (step_at o w a n Hn) as (cs1 & Hcs1 & Hem1).
    destruct (IH _ _ Hcs1) as (cs2 & Hcs2 & Hem2).
    exists (cs1 ++ cs2). split.
    + by rewrite node_calls_app.
    + apply Forall_app. split.
      * eapply Forall_impl; [exact Hem1|]. intros c Hc. exists o. split; [left|done].
      * eapply Forall_impl; [exact Hem2|]. intros c (o' & Ho' & Hc).
        exists o'. split; [by right|done].
Qed.

Lemma run_app (ops1 ops2 : list Op) (w : World) :
  run (ops1 ++ ops2) w = run ops2 (run ops1 w).
Proof. apply foldl_app. Qed.

(** An invariant of every call is an invariant of every sequence of calls. *)
Lemma node_calls_ind (R : PaxosNode → PaxosNode → Prop) :
  (∀ n, R n n) →
  (∀ n1 n2 n3, R n1 n2 → R n2 n3 → R n1 n3) →
  (∀ n c, R n (node_call n c)) →
  ∀ cs n, R n (node_calls cs n).
Proof.
  intros Hrefl Htrans Hstep cs. induction cs as [|c cs IH]; intros n; simpl.
  - apply Hrefl.
  - eapply Htrans; [apply Hstep|apply IH].
Qed.

(** ** The largest promised ballot *)

Lemma max_ballot_None (l : list Z) : max_ballot l = None → l = [].
Proof. by destruct l. Qed.

Lemma max_ballot_Some (l : list Z) (m : Z) :
  max_ballot l = Some m → m ∈ l ∧ ∀ x, x ∈ l → x ≤ m.
Proof.
  revert m. induction l as [|b l IH]; intros m; simpl; [done|].
  destruct (max_ballot l) as [m'|] eqn:Hl; intros [= <-].
  - destruct (IH m' eq_refl) as [Hin Hmax]. split.
    + destruct (Z.max_spec b m') as [[_ ->]|[_ ->]]; [by right|by left].
    + intros x [->|Hx]%elem_of_cons; [lia|]. specialize (Hmax x Hx). lia.
  - apply max_ballot_None in Hl as ->. split; [by left|].
    intros x [->|Hx]%elem_of_cons; [lia|]. by apply elem_of_nil in Hx.
Qed.

Lemma highest_promised_None (n : PaxosNode) :
  highest_promised n = None ↔ received_promises n = ∅.
Proof.
  unfold highest_promised. split.
  - intros H%max_ballot_None. by apply elements_empty_inv in H as ?%leibniz_equiv.
  - intros ->. by rewrite elements_empty.
Qed.

Lemma highest_promised_Some (n : PaxosNode) (m : Z) :
  highest_promised n = Some m ↔
  m ∈ received_promises n ∧ ∀ x, x ∈ received_promises n → x ≤ m.
Proof.
  unfold highest_promised. split.
  - intros [Hin Hmax]%max_ballot_Some. split.
    + by apply elem_of_elements.
    + intros x Hx. by apply Hmax, elem_of_elements.
  - intros [Hin Hmax].
    destruct (max_ballot (elements (received_promises n))) as [m'|] eqn:Hm.
    + apply max_ballot_Some in Hm as [Hin' Hmax'].
      apply elem_of_elements in Hin'.
      f_equal. apply Z.le_antisymm; [by apply Hmax|].
      by apply Hmax', elem_of_elements.
    + apply max_ballot_None, elements_empty_inv, leibniz_equiv in Hm.
      rewrite Hm in Hin. by apply not_elem_of_empty in Hin.
Qed.

Lemma highest_promised_mono (n1 n2 : PaxosNode) :
  received_promises n1 ⊆ received_promises n2 →
  ballot_le (highest_promised n1) (highest_promised n2).
Proof.
  intros Hsub.
  destruct (highest_promised n1) as [m1|] eqn:H1; [|done].
  apply highest_promised_Some in H1 as [Hin1 _].
  destruct (highest_promised n2) as [m2|] eqn:H2; simpl.
  - apply highest_promised_Some in H2 as [_ Hmax2]. by apply Hmax2, Hsub.
  - apply highest_promised_None in H2. apply Hsub in Hin1.
    rewrite H2 in Hin1. by apply not_elem_of_empty in Hin1.
Qed.

Lemma node_calls_promises (cs : list Call) (n : PaxosNode) :
  received_promises n ⊆ received_promises (node_calls cs n).
Proof.
  revert n. apply (node_calls_ind (λ n1 n2, received_promises n1 ⊆ received_promises n2)).
  - done.
  - intros n1 n2 n3 H12 H23. by transitivity (received_promises n2).
  - apply node_call_promises.
Qed.

(** ** What the two handlers do to a node *)

(** [receive_accept] on a node that is up, whatever it has promised: the
    count of the key goes up by one, and the value is recorded when the new
    count reaches the majority. *)
Lemma receive_accept_up (p : Proposal) (n : PaxosNode) (lg : PaxosLogger) :
  state n = UP →
  let key := (proposal_number p, value p) in
  let count := acceptances n key + 1 in
  let reached := bool_decide (totalnodecount n `div` 2 + 1 ≤ count) in
  (receive_accept p n lg).1 =
    {| node_id := node_id n;
       totalnodecount := totalnodecount n;
       state := state n;
       role := role n;
       last_consensus := if reached then Some (value p) else last_consensus n;
       consensus_reached := if reached then false else consensus_reached n;
       received_promises := received_promises n;
       acceptance_counts := <[key := count]> (acceptance_counts n) |}.
Proof.
  intros Hup. unfold receive_accept, acceptances.
  rewrite decide_True by done.
  destruct (acceptance_counts n !! (proposal_number p, value p)) as [c|] eqn:Hc; simpl;
    rewrite lookup_total_insert_eq; change (0 + 1) with 1;
    case_bool_decide; reflexivity.
Qed.

(** A node that is not up ignores both handlers, and logs nothing. *)
Lemma receive_accept_not_up (p : Proposal) (n : PaxosNode) (lg : PaxosLogger) :
  state n ≠ UP → receive_accept p n lg = (n, lg).
Proof. intros Hst. unfold receive_accept. by rewrite decide_False. Qed.

Lemma receive_prepare_not_up (p : Proposal) (n : PaxosNode) (lg : PaxosLogger) :
  state n ≠ UP → receive_prepare p n lg = (n, lg).
Proof. intros Hst. unfold receive_prepare. by rewrite decide_False. Qed.

Lemma send_promise_not_up (p : Proposal) (n : PaxosNode) (lg : PaxosLogger) :
  state n ≠ UP → send_promise p n lg = (n, lg, None).
Proof. intros Hst. unfold send_promise. by rewrite decide_False. Qed.

(** [receive_prepare] leaves the node that [send_promise] leaves. *)
Lemma receive_prepare_node (p : Proposal) (n : PaxosNode) (lg : PaxosLogger) :
  (receive_prepare p n lg).1 = (send_promise p n lg).1.1.
Proof.
  unfold receive_prepare, send_promise. split_cases; congruence.
Qed.

(** The loop of [decide_on_promises_received] visits every promised ballot
    once, so each count it builds is 1: it logs for the first ballot visited
    when the majority is at most 1, and logs nothing otherwise. *)
Lemma decide_loop_spec (n : PaxosNode) (q : Z) (l : list Z) (cc : gmap Z Z)
    (lg : PaxosLogger) :
  NoDup l → (∀ b, b ∈ l → cc !! b = None) →
  decide_loop n q l cc lg =
    match l with
    | [] => lg
    | b :: _ =>
        if decide (q ≤ 1) then
          record_log lg
            (PyInt (node_id n)) (NodeRole_value (role n)) (NodeState_value (state n))
            (PyInt (node_id n)) (NodeRole_value (role n)) (NodeState_value (state n))
            "ConsensusAchieved" (str_int b) (str_int b) true
        else lg
    end.
Proof.
  revert cc. induction l as [|b l IH]; intros cc Hnd Hcc; simpl; [done|].
  apply NoDup_cons in Hnd as [Hb Hnd].
  assert (b ∉ dom cc) as Hdom by (apply not_elem_of_dom, Hcc; by left).
  destruct (decide (b ∉ dom cc)) as [_|]; [|done].
  rewrite insert_insert_eq, !lookup_total_insert_eq. simpl.
  change (0 + 1) with 1.
  destruct (decide (q ≤ 1)) as [Hq|Hq]; [done|].
  rewrite IH; [by destruct l| done |].
  intros b' Hb'. rewrite lookup_insert_ne by (intros ->; done).
  apply Hcc. by right.
Qed.

Lemma decide_on_promises_received_spec (p : Proposal) (n : PaxosNode) (lg : PaxosLogger) :
  decide_on_promises_received p n lg =
    (n,
     match elements (received_promises n) with
     | [] => lg
     | b :: _ =>
         if decide (totalnodecount n `div` 2 + 1 ≤ 1) then
           record_log lg
             (PyInt (node_id n)) (NodeRole_value (role n)) (NodeState_value (state n))
             (PyInt (node_id n)) (NodeRole_value (role n)) (NodeState_value (state n))
             "ConsensusAchieved" (str_int b) (str_int b) true
         else lg
     end).
Proof.
  unfold decide_on_promises_received. f_equal.
  apply decide_loop_spec; [apply NoDup_elements|]. intros b _. apply lookup_empty.
Qed.

(** ** Claims about promises and the quorum *)

(** C5.  Monotonicity: along every execution of the cluster (any
    interleaving of [receive_prepare], [receive_accept] and every other
    operation), the promises a node holds only grow, so its highest promised
    ballot never decreases between two points of the execution. *)
Theorem highest_promised_non_decreasing
    (ops1 ops2 : list Op) (w : World) (a : nat) (n1 : PaxosNode) :
  heap (run ops1 w) !! a = Some n1 →
  ∃ n2, heap (run (ops1 ++ ops2) w) !! a = Some n2 ∧
        received_promises n1 ⊆ received_promises n2 ∧
        ballot_le (highest_promised n1) (highest_promised n2).
Proof.
  intros H1. rewrite run_app.
  destruct (run_at ops2 _ a n1 H1) as (cs & Hcs & _).
  exists (node_calls cs n1). split; [done|].
  pose proof (node_calls_promises cs n1) as Hsub.
  split; [done|]. by apply highest_promised_mono.
Qed.

Lemma highest_promised_non_decreasing_witness :
  let w := make_cluster 1 3 3 in
  let ops1 := [OpSendPrepare 0 [0; 1; 2]%nat (mkProposal 1 5 "a")] in
  let ops2 := [OpSendAccept 0 [0; 1; 2]%nat (mkProposal 1 5 "a");
               OpSendPrepare 1 [0; 1; 2]%nat (mkProposal 2 3 "b")] in
  let n1 := node_calls [CReceivePrepare (mkProposal 1 5 "a")] (__init__ 3 ACCEPTOR 3) in
  heap (run ops1 w) !! 2%nat = Some n1 ∧
  ∃ n2, heap (run (ops1 ++ ops2) w) !! 2%nat = Some n2 ∧
        received_promises n1 ⊆ received_promises n2 ∧
        ballot_le (highest_promised n1) (highest_promised n2).
Proof.
  intros w ops1 ops2 n1. split; [vm_compute; reflexivity|].
  apply (highest_promised_non_decreasing ops1 ops2 w 2 n1).
  vm_compute; reflexivity.
Defined.

Lemma node_calls_totalnodecount (cs : list Call) (n : PaxosNode) :
  totalnodecount (node_calls cs n) = totalnodecount n.
Proof.
  revert n. apply (node_calls_ind (λ n1 n2, totalnodecount n2 = totalnodecount n1)).
  - done.
  - intros n1 n2 n3 H12 H23. congruence.
  - intros n c. apply node_call_frame.
Qed.

(** C6.  Quorum arithmetic: a node configured with [N] members keeps
    [totalnodecount = N] through every execution, marking members down
    included; the majority is [N // 2 + 1] in the accept phase (the value is
    recorded exactly when the count of the key reaches it) and in the promise
    phase: [decide_on_promises_received] leaves the node as it is and records
    one "ConsensusAchieved" entry exactly when the node holds a promise and
    [N // 2 + 1] is at most the count 1 that each promised ballot gets, in
    whatever order the set is visited. *)
Theorem quorum_size_configured
    (N : Z) (ops : list Op) (w : World) (a : nat) (n : PaxosNode) :
  heap w !! a = Some n →
  totalnodecount n = N →
  ∃ n', heap (run ops w) !! a = Some n' ∧
        totalnodecount n' = N ∧
        quorum_size n' = N `div` 2 + 1 ∧
        (∀ st, quorum_size (set_state st n') = N `div` 2 + 1) ∧
        (∀ p lg,
           last_consensus (receive_accept p n' lg).1 =
             if bool_decide (state n' = UP) &&
                bool_decide (N `div` 2 + 1
                             ≤ acceptances n' (proposal_number p, value p) + 1)
             then Some (value p)
             else last_consensus n') ∧
        (∀ p lg,
           (decide_on_promises_received p n' lg).1 = n' ∧
           actions (decide_on_promises_received p n' lg).2 =
             actions lg ++
             if decide (received_promises n' ≠ ∅ ∧ N `div` 2 + 1 ≤ 1)
             then ["ConsensusAchieved"]
             else []).
Proof.
  intros Hn HN.
  destruct (run_at ops w a n Hn) as (cs & Hcs & _).
  exists (node_calls cs n).
  assert (totalnodecount (node_calls cs n) = N) as HN'
    by (by rewrite node_calls_totalnodecount).
  split; [done|]. split; [done|].
  split; [by unfold quorum_size; rewrite HN'|].
  split; [by intros st; unfold quorum_size; simpl; rewrite HN'|].
  split.
  - intros p lg. destruct (decide (state (node_calls cs n) = UP)) as [Hup|Hup].
    + rewrite receive_accept_up by done. simpl.
      rewrite (bool_decide_eq_true_2 (state _ = UP)) by done. by rewrite HN'.
    + rewrite receive_accept_not_up by done.
      by rewrite (bool_decide_eq_false_2 (state _ = UP)).
  - intros p lg. rewrite decide_on_promises_received_spec. simpl.
    split; [done|]. rewrite HN'.
    destruct (elements (received_promises (node_calls cs n))) as [|b l] eqn:Hel.
    + apply elements_empty_inv, leibniz_equiv in Hel.
      rewrite decide_False by (by intros [? _]). by rewrite app_nil_r.
    + assert (received_promises (node_calls cs n) ≠ ∅) as Hne.
      { intros Hempty. by rewrite Hempty, elements_empty in Hel. }
      destruct (decide (N `div` 2 + 1 ≤ 1)) as [Hq|Hq].
      * rewrite decide_True by done.
        unfold actions, record_log. simpl. by rewrite fmap_app.
      * rewrite decide_False by (by intros [_ ?]). by rewrite app_nil_r.
Qed.

Lemma quorum_size_configured_witness :
  let w := make_cluster 1 5 5 in
  let ops := [OpCall 3 (CAssignState DOWN); OpCall 4 (CAssignState DOWN);
              OpSendPrepare 0 [0; 1; 2; 3; 4]%nat (mkProposal 1 1 "survive");
              OpSendAccept 0 [0; 1; 2; 3; 4]%nat (mkProposal 1 1 "survive")] in
  ∃ n', heap (run ops w) !! 1%nat = Some n' ∧
        totalnodecount n' = 5 ∧
        quorum_size n' = 3.
Proof.
  intros w ops.
  destruct (quorum_size_configured 5 ops w 1 (__init__ 2 ACCEPTOR 5))
    as (n' & Hn' & Hcount & Hq & _).
  - vm_compute; reflexivity.
  - reflexivity.
  - exists n'. split; [exact Hn'|]. split; [exact Hcount|]. exact Hq.
Defined.

(** The majorities of the cluster sizes the specification lists. *)
Example quorum_size_1_3_4_5_7 :
  quorum_size (__init__ 1 ACCEPTOR 1) = 1 ∧
  quorum_size (__init__ 1 ACCEPTOR 3) = 2 ∧
  quorum_size (__init__ 1 ACCEPTOR 4) = 3 ∧
  quorum_size (__init__ 1 ACCEPTOR 5) = 3 ∧
  quorum_size (__init__ 1 ACCEPTOR 7) = 4.
Proof. repeat split. Qed.

(** ** Claims about decisions, unreachable nodes and the flag *)

(** C7.  Idempotence: on a node that has recorded the value of a proposal,
    delivering a broadcast of that proposal again leaves the whole node as it
    was, [set_consensus] with that value does nothing at all, and delivering
    an Accept of that proposal again leaves the recorded value as it was. *)
Theorem decided_value_replay_idempotent
    (p : Proposal) (n : PaxosNode) (lg : PaxosLogger) :
  last_consensus n = Some (value p) →
  (receive_broadcast p n lg).1 = n ∧
  set_consensus (value p) n lg = (n, lg) ∧
  last_consensus (receive_accept p n lg).1 = Some (value p).
Proof.
  intros Hv.
  assert (set_consensus (value p) n lg = (n, lg)) as Hset.
  { unfold set_consensus. rewrite decide_False; [done|]. by intros []. }
  split; [|split; [done|]].
  - unfold receive_broadcast. rewrite Hset. case_decide; [|done].
    destruct n; simpl in *. by subst.
  - destruct (decide (state n = UP)) as [Hup|Hup].
    + rewrite receive_accept_up by done. simpl. by case_bool_decide.
    + by rewrite receive_accept_not_up.
Qed.

Lemma decided_value_replay_idempotent_witness :
  let p := mkProposal 1 1 "v1" in
  let n := node_calls [CReceiveBroadcast p] (__init__ 2 ACCEPTOR 3) in
  let lg := mkLogger 1 [] in
  last_consensus n = Some "v1" ∧
  (receive_broadcast p n lg).1 = n ∧
  set_consensus (value p) n lg = (n, lg) ∧
  last_consensus (receive_accept p n lg).1 = Some (value p).
Proof.
  intros p n lg. split; [reflexivity|].
  apply (decided_value_replay_idempotent p n lg). reflexivity.
Defined.

(** C8.  Unreachable targets: a Prepare or an Accept broadcast leaves a node
    that is not up (down or blocked) exactly as it was; the turn of the loop
    for such a target changes no node at all ([send_accept] does not even
    log), and the handlers themselves return the node and the logger
    untouched, and no promise, when the node is not up. *)
Theorem unreachable_target_unchanged
    (self : nat) (nodes : list nat) (p : Proposal) (w : World)
    (a : nat) (n : PaxosNode) :
  heap w !! a = Some n →
  state n ≠ UP →
  heap (send_prepare self nodes p w) !! a = Some n ∧
  heap (send_accept self nodes p w) !! a = Some n ∧
  heap (send_prepare_body self p w a) = heap w ∧
  send_accept_body self p w a = w ∧
  (∀ lg, receive_prepare p n lg = (n, lg)) ∧
  (∀ lg, send_promise p n lg = (n, lg, None)) ∧
  (∀ lg, receive_accept p n lg = (n, lg)).
Proof.
  intros Hn Hst.
  assert (is_up w a = false) as Hup.
  { unfold is_up. rewrite Hn. by apply bool_decide_eq_false_2. }
  repeat split.
  - rewrite (send_prepare_heap _ _ _ _ _ _ Hn).
    by rewrite (bool_decide_eq_false_2 (state n = UP)), andb_false_r.
  - rewrite (send_accept_heap _ _ _ _ _ _ Hn).
    by rewrite (bool_decide_eq_false_2 (state n = UP)), andb_false_r.
  - unfold send_prepare_body. rewrite Hup. apply log_about_heap.
  - unfold send_accept_body. by rewrite Hup.
  - intros lg. by apply receive_prepare_not_up.
  - intros lg. by apply send_promise_not_up.
  - intros lg. by apply receive_accept_not_up.
Qed.

Lemma unreachable_target_unchanged_witness :
  let w := run [OpCall 1 (CAssignState DOWN); OpCall 2 (CAssignState BLOCKED)]
               (make_cluster 1 3 3) in
  let p := mkProposal 1 1 "v1" in
  let n := set_state BLOCKED (__init__ 3 ACCEPTOR 3) in
  heap w !! 2%nat = Some n ∧
  state n ≠ UP ∧
  heap (send_prepare 0 [0; 1; 2]%nat p w) !! 2%nat = Some n ∧
  heap (send_accept 0 [0; 1; 2]%nat p w) !! 2%nat = Some n.
Proof.
  intros w p n.
  assert (heap w !! 2%nat = Some n) as Hn by (vm_compute; reflexivity).
  assert (state n ≠ UP) as Hst by (simpl; discriminate).
  destruct (unreachable_target_unchanged 0 [0; 1; 2]%nat p w 2 n Hn Hst)
    as (Hprep & Hacc & _).
  split; [exact Hn|]. split; [exact Hst|]. split; [exact Hprep|exact Hacc].
Defined.

Lemma node_calls_flag (cs : list Call) (n : PaxosNode) :
  consensus_reached n = false → consensus_reached (node_calls cs n) = false.
Proof.
  revert n.
  apply (node_calls_ind
           (λ n1 n2, consensus_reached n1 = false → consensus_reached n2 = false)).
  - done.
  - intros n1 n2 n3 H12 H23 H1. by apply H23, H12.
  - intros n c. apply node_call_flag.
Qed.

Lemma make_cluster_lookup (r : Z) (k : nat) (N : Z) (a : nat) (n : PaxosNode) :
  heap (make_cluster r k N) !! a = Some n →
  n = __init__ (Z.of_nat a + 1) ACCEPTOR N.
Proof.
  unfold make_cluster. simpl. rewrite list_lookup_fmap.
  intros Hn. apply fmap_Some in Hn as (i & Hi & ->).
  apply lookup_seq in Hi as [-> _]. done.
Qed.

Lemma run_length (ops : list Op) (w : World) :
  length (heap (run ops w)) = length (heap w).
Proof.
  revert w. induction ops as [|o ops IH]; intros w; [done|].
  simpl. rewrite IH. clear IH.
  assert (∀ a m w, length (heap (call a m w)) = length (heap w)) as Hcall.
  { intros a m w'. unfold call. destruct (heap w' !! a); [|done].
    destruct (m _ _). simpl. apply length_insert. }
  assert (∀ (body : World → nat → World) nodes w,
            (∀ w x, length (heap (body w x)) = length (heap w)) →
            length (heap (foldl body w nodes)) = length (heap w)) as Hfold.
  { intros body nodes. induction nodes as [|x xs IHx]; intros w' Hbody; [done|].
    simpl. rewrite IHx by done. apply Hbody. }
  destruct o as [a c|self nodes p|self nodes p]; simpl.
  - apply Hcall.
  - unfold send_prepare. destruct (is_up w self); [|by rewrite log_about_heap].
    apply Hfold. intros w' x. unfold send_prepare_body.
    destruct (is_up w' x); rewrite log_about_heap; [apply Hcall|done].
  - unfold send_accept. destruct (is_up w self); [|done].
    apply Hfold. intros w' x. unfold send_accept_body.
    destruct (is_up w' x); [|done]. by rewrite Hcall, log_about_heap.
Qed.

(** Every node of an execution is the node the execution started with at
    that address, after some calls. *)
Lemma run_from (ops : list Op) (w : World) (a : nat) (n' : PaxosNode) :
  heap (run ops w) !! a = Some n' →
  ∃ n cs, heap w !! a = Some n ∧ n' = node_calls cs n ∧
          Forall (λ c, ∃ o, o ∈ ops ∧ emits o c) cs.
Proof.
  intros Hn'.
  destruct (heap w !! a) as [n|] eqn:Hn.
  - destruct (run_at ops w a n Hn) as (cs & Hcs & Hem).
    exists n, cs. split; [done|]. split; [congruence|done].
  - apply lookup_ge_None in Hn. apply lookup_lt_Some in Hn'.
    rewrite run_length in Hn'. lia.
Qed.

Lemma set_consensus_flags (v : string) (n : PaxosNode) (lg : PaxosLogger) :
  logger.consensus_reached <$> entries (set_consensus v n lg).2 =
    (logger.consensus_reached <$> entries lg) ++
    (if decide (last_consensus n = Some v) then [] else [true; false]).
Proof.
  unfold set_consensus. destruct (decide (last_consensus n = Some v)) as [Heq|Hne].
  - rewrite decide_False by (by intros []). simpl. by rewrite app_nil_r.
  - rewrite decide_True by done. simpl.
    rewrite !fmap_app. simpl. by rewrite <- app_assoc.
Qed.

(** C9.  The flag [consensus_reached]: in every execution that starts from
    nodes whose flag is down, as the constructor builds them, the flag is
    down on every node after every operation, and it is down again after any
    further call on that node.  Inside [set_consensus] the flag is raised and
    reset: when the value is new, the call logs one entry with the flag up
    followed by one with the flag down, and nothing when the value is the one
    already recorded. *)
Theorem consensus_reached_never_observed
    (ops : list Op) (w : World) (a : nat) (n : PaxosNode) :
  Forall (λ n0, consensus_reached n0 = false) (heap w) →
  heap (run ops w) !! a = Some n →
  consensus_reached n = false ∧
  (∀ c lg, consensus_reached (do_call c n lg).1 = false) ∧
  (∀ v lg, consensus_reached (set_consensus v n lg).1 = false) ∧
  (∀ p lg, consensus_reached (receive_broadcast p n lg).1 = false) ∧
  (∀ v lg,
     logger.consensus_reached <$> entries (set_consensus v n lg).2 =
       (logger.consensus_reached <$> entries lg) ++
       (if decide (last_consensus n = Some v) then [] else [true; false])).
Proof.
  intros Hw Hn.
  apply run_from in Hn as (n0 & cs & Hn0 & -> & _).
  assert (consensus_reached (node_calls cs n0) = false) as Hflag.
  { apply node_calls_flag. by eapply (proj1 (Forall_lookup _ _) Hw). }
  split; [done|].
  assert (∀ c lg, consensus_reached (do_call c (node_calls cs n0) lg).1 = false)
    as Hcall.
  { intros c lg. rewrite do_call_node. by apply node_call_flag. }
  split; [done|].
  split; [intros v lg; apply (Hcall (CSetConsensus v))|].
  split; [intros p lg; apply (Hcall (CReceiveBroadcast p))|].
  intros v lg. apply set_consensus_flags.
Qed.

Lemma make_cluster_flags (r : Z) (k : nat) (N : Z) :
  Forall (λ n0, consensus_reached n0 = false) (heap (make_cluster r k N)).
Proof.
  apply Forall_lookup. intros a n Hn. by apply make_cluster_lookup in Hn as ->.
Qed.

Lemma consensus_reached_never_observed_witness :
  let p := mkProposal 1 1 "test_value" in
  let ops := [OpCall 0 (CSetConsensus "test_value");
              OpSendAccept 0 [0; 1; 2]%nat p;
              OpSendAccept 0 [0; 1; 2]%nat p;
              OpCall 2 (CReceiveBroadcast p)] in
  let n := node_calls [CReceiveAccept p; CReceiveAccept p; CReceiveBroadcast p]
                      (__init__ 3 ACCEPTOR 3) in
  Forall (λ n0, consensus_reached n0 = false) (heap (make_cluster 1 3 3)) ∧
  heap (run ops (make_cluster 1 3 3)) !! 2%nat = Some n ∧
  last_consensus n = Some "test_value" ∧
  consensus_reached n = false.
Proof.
  intros p ops n.
  assert (Forall (λ n0, consensus_reached n0 = false) (heap (make_cluster 1 3 3)))
    as Hw by (repeat constructor).
  assert (heap (run ops (make_cluster 1 3 3)) !! 2%nat = Some n) as Hn
    by (vm_compute; reflexivity).
  split; [exact Hw|]. split; [exact Hn|]. split; [reflexivity|].
  exact (proj1 (consensus_reached_never_observed ops (make_cluster 1 3 3) 2 n Hw Hn)).
Defined.

(** ** Counting acceptances *)

Lemma call_accept_or_not (c : Call) :
  (∃ p, c = CReceiveAccept p) ∨ (∀ p, c ≠ CReceiveAccept p).
Proof. destruct c; eauto; right; discriminate. Qed.

Lemma node_call_counts_other (n : PaxosNode) (c : Call) :
  (∀ p, c ≠ CReceiveAccept p) →
  acceptance_counts (node_call n c) = acceptance_counts n.
Proof.
  intros Hc. destruct c; unfold_methods; simpl; split_cases; try done.
  all: by destruct (Hc proposal).
Qed.


Lemma node_call_accept (n : PaxosNode) (p : Proposal) :
  node_call n (CReceiveAccept p) =
    if decide (state n = UP) then (receive_accept p n (mkLogger 0 [])).1 else n.
Proof.
  unfold node_call. simpl. case_decide; [done|]. by rewrite receive_accept_not_up.
Qed.

(** One call adds at most one acceptance, to the key of the Accept it
    delivers; a value newly recorded by a counting call has a key that
    reached the majority. *)
Lemma node_call_acceptances (n : PaxosNode) (c : Call) (key : Z * string) :
  acceptances n key ≤ acceptances (node_call n c) key ∧
  acceptances (node_call n c) key
    ≤ acceptances n key + (if is_accept_of key c then 1 else 0).
Proof.
  destruct (call_accept_or_not c) as [[p ->]|Hc].
  - rewrite node_call_accept. simpl. case_decide as Hup.
    + rewrite receive_accept_up by done. unfold acceptances. simpl.
      destruct (decide ((proposal_number p, value p) = key)) as [<-|Hne].
      * rewrite bool_decide_eq_true_2 by done.
        rewrite lookup_insert_eq. simpl. lia.
      * rewrite bool_decide_eq_false_2 by done.
        rewrite lookup_insert_ne by done. lia.
    + case_bool_decide; lia.
  - unfold acceptances. rewrite node_call_counts_other by done.
    destruct c; simpl; try lia. case_bool_decide; lia.
Qed.


Lemma node_calls_snoc (cs : list Call) (c : Call) (n : PaxosNode) :
  node_calls (cs ++ [c]) n = node_call (node_calls cs n) c.
Proof. by rewrite node_calls_app. Qed.

Lemma accepts_received_snoc (key : Z * string) (cs : list Call) (c : Call) :
  accepts_received key (cs ++ [c]) =
    accepts_received key cs + (if is_accept_of key c then 1 else 0).
Proof.
  unfold accepts_received. rewrite filter_app, length_app, Nat2Z.inj_add.
  f_equal. rewrite filter_cons, filter_nil.
  destruct (is_accept_of key c); by case_decide.
Qed.


Lemma count_occ_NoDup (nodes : list nat) (a : nat) :
  NoDup nodes →
  count_occ Nat.eq_dec nodes a = if bool_decide (a ∈ nodes) then 1%nat else 0%nat.
Proof.
  intros Hnd. case_bool_decide as Hin.
  - apply NoDup_ListNoDup in Hnd. apply list_elem_of_In in Hin.
    by apply (proj1 (NoDup_count_occ' Nat.eq_dec nodes)).
  - apply count_occ_not_In. by rewrite <- list_elem_of_In.
Qed.

(** ** Claims about the accept phase *)



(** ** Claims about the two acceptor handlers *)

Lemma highest_promised_add (b : Z) (n n' : PaxosNode) :
  received_promises n' = {[ b ]} ∪ received_promises n →
  highest_promised n' =
    Some (match highest_promised n with None => b | Some m => Z.max b m end).
Proof.
  intros Heq. apply highest_promised_Some. rewrite Heq.
  destruct (highest_promised n) as [m|] eqn:Hm.
  - apply highest_promised_Some in Hm as [Hin Hmax]. split.
    + apply elem_of_union.
      destruct (Z.max_spec b m) as [[_ ->]|[_ ->]];
        [by right|left; by apply elem_of_singleton].
    + intros x [->%elem_of_singleton|Hx]%elem_of_union; [lia|].
      specialize (Hmax x Hx). lia.
  - apply highest_promised_None in Hm. rewrite Hm. split.
    { apply elem_of_union. left. by apply elem_of_singleton. }
    intros x [->%elem_of_singleton|Hx]%elem_of_union; [lia|].
    by apply not_elem_of_empty in Hx.
Qed.

(** C3, as the code has it.  A node that is up answers every Prepare with a
    promise, whatever ballots it has promised before: the ballot is added to
    [received_promises], so the highest promised ballot becomes the larger of
    the old one and the new one, and [send_promise] returns the dictionary
    with the ballot, the node's id and the node's recorded value (the string
    "None" when there is none).  [receive_prepare] leaves the same node and
    drops the dictionary.  There is no rejection. *)
Theorem prepare_is_always_promised
    (p : Proposal) (n : PaxosNode) (lg : PaxosLogger) :
  state n = UP →
  (send_promise p n lg).1.1 =
    set_received_promises ({[ proposal_number p ]} ∪ received_promises n) n ∧
  (receive_prepare p n lg).1 = (send_promise p n lg).1.1 ∧
  (send_promise p n lg).2 =
    Some (Promise.mk (proposal_number p) (node_id n)
                     (str_opt (last_consensus n))
                     (bool_decide (last_consensus n ≠ None))) ∧
  highest_promised (receive_prepare p n lg).1 =
    Some (match highest_promised n with
          | None => proposal_number p
          | Some m => Z.max (proposal_number p) m
          end).
Proof.
  intros Hup.
  assert ((send_promise p n lg).1.1 =
          set_received_promises ({[ proposal_number p ]} ∪ received_promises n) n)
    as Hnode.
  { unfold send_promise. by rewrite decide_True. }
  split; [done|]. split; [apply receive_prepare_node|]. split.
  - unfold send_promise. rewrite decide_True by done. simpl.
    by destruct (last_consensus n).
  - rewrite receive_prepare_node, Hnode. by apply highest_promised_add.
Qed.

Lemma prepare_is_always_promised_witness :
  let lg := mkLogger 1 [] in
  let n := node_calls [CReceivePrepare (mkProposal 2 5 "b")] (__init__ 1 ACCEPTOR 3) in
  let p := mkProposal 3 3 "c" in
  state n = UP ∧
  (send_promise p n lg).2 = Some (Promise.mk 3 1 "None" false) ∧
  highest_promised (receive_prepare p n lg).1 = Some 5.
Proof.
  intros lg n p.
  destruct (prepare_is_always_promised p n lg) as (_ & _ & Hdict & Hhp);
    [reflexivity|].
  split; [reflexivity|]. split; [exact Hdict|].
  rewrite Hhp. vm_compute. reflexivity.
Defined.

(** C3 as stated fails: an acceptor whose highest promised ballot is 5
    receives a Prepare with ballot 3; instead of a rejection carrying 5 it
    returns a promise for ballot 3 and adds 3 to its promises. *)
Lemma stale_prepare_is_promised :
  let lg := mkLogger 1 [] in
  let acceptor :=
    node_calls [CReceivePrepare (mkProposal 2 5 "b")] (__init__ 1 ACCEPTOR 3) in
  let prepare := mkProposal 3 3 "c" in
  state acceptor = UP ∧
  highest_promised acceptor = Some 5 ∧
  ¬ ballot_lt (highest_promised acceptor) (Some (proposal_number prepare)) ∧
  (send_promise prepare acceptor lg).2 = Some (Promise.mk 3 1 "None" false) ∧
  received_promises (receive_prepare prepare acceptor lg).1 = {[ 3; 5 ]}.
Proof.
  intros lg acceptor prepare.
  assert (highest_promised acceptor = Some 5) as Hhp by (vm_compute; reflexivity).
  split; [reflexivity|]. split; [exact Hhp|].
  split; [rewrite Hhp; simpl; lia|]. split; vm_compute; reflexivity.
Qed.

(** C4, as the code has it.  A node that is up counts every Accept, whatever
    ballots it has promised: the count of the key [(b, v)] goes up by one,
    the promises and with them the highest promised ballot stay as they were,
    and [v] is recorded exactly when the new count reaches the majority.  The
    handler returns nothing. *)
Theorem accept_is_always_counted
    (p : Proposal) (n : PaxosNode) (lg : PaxosLogger) :
  state n = UP →
  let key := (proposal_number p, value p) in
  let n' := (receive_accept p n lg).1 in
  acceptance_counts n' = <[ key := acceptances n key + 1 ]> (acceptance_counts n) ∧
  received_promises n' = received_promises n ∧
  highest_promised n' = highest_promised n ∧
  last_consensus n' =
    (if bool_decide (quorum_size n ≤ acceptances n key + 1)
     then Some (value p) else last_consensus n) ∧
  state n' = state n.
Proof.
  intros Hup key n'. subst n'. rewrite receive_accept_up by done.
  unfold highest_promised, quorum_size. simpl. done.
Qed.

Lemma accept_is_always_counted_witness :
  let lg := mkLogger 1 [] in
  let n := node_calls [CReceivePrepare (mkProposal 2 5 "b")] (__init__ 1 ACCEPTOR 3) in
  let p := mkProposal 3 3 "c" in
  state n = UP ∧
  acceptance_counts (receive_accept p n lg).1 = {[ (3, "c") := 1 ]} ∧
  highest_promised (receive_accept p n lg).1 = Some 5.
Proof.
  intros lg n p.
  destruct (accept_is_always_counted p n lg) as (Hcounts & _ & Hhp & _);
    [reflexivity|].
  split; [reflexivity|]. split.
  - rewrite Hcounts. vm_compute. reflexivity.
  - rewrite Hhp. vm_compute. reflexivity.
Defined.

(** C4 as stated fails: an acceptor whose highest promised ballot is 5
    counts an Accept with ballot 3 instead of rejecting it, and an Accept
    with ballot 7 leaves its highest promised ballot at 5. *)
Lemma stale_accept_is_counted :
  let lg := mkLogger 1 [] in
  let acceptor :=
    node_calls [CReceivePrepare (mkProposal 2 5 "b")] (__init__ 1 ACCEPTOR 3) in
  let stale := mkProposal 3 3 "c" in
  let fresh := mkProposal 3 7 "d" in
  state acceptor = UP ∧
  highest_promised acceptor = Some 5 ∧
  ¬ ballot_le (highest_promised acceptor) (Some (proposal_number stale)) ∧
  acceptances (receive_accept stale acceptor lg).1 (3, "c") = 1 ∧
  ballot_le (highest_promised acceptor) (Some (proposal_number fresh)) ∧
  highest_promised (receive_accept fresh acceptor lg).1 = Some 5.
Proof.
  intros lg acceptor stale fresh.
  assert (highest_promised acceptor = Some 5) as Hhp by (vm_compute; reflexivity).
  split; [reflexivity|]. split; [exact Hhp|].
  split; [rewrite Hhp; simpl; lia|]. split; [vm_compute; reflexivity|].
  split; [rewrite Hhp; simpl; lia|]. vm_compute; reflexivity.
Qed.

(** ** Claims about the value that is proposed and decided *)

(** C2, as the code has it.  Whatever the acceptors have reported in their
    promises, the Accept phase carries the proposal the caller passes to
    [send_accept], unchanged: every node of [nodes] that is up counts one
    acceptance for the key of that proposal, and no count of another key
    moves.  The promise phase selects nothing: [decide_on_promises_received]
    leaves the node as it is and [receive_promise] only adds the proposal
    number to [received_promises]. *)
Theorem accept_phase_carries_callers_value
    (self : nat) (nodes : list nat) (p : Proposal) (w : World)
    (a : nat) (n : PaxosNode) :
  is_up w self = true →
  NoDup nodes →
  a ∈ nodes →
  heap w !! a = Some n →
  state n = UP →
  ∃ n', heap (send_accept self nodes p w) !! a = Some n' ∧
        (∀ key, acceptance_counts n' !! key =
                  if decide (key = (proposal_number p, value p))
                  then Some (acceptances n key + 1)
                  else acceptance_counts n !! key) ∧
        (∀ q lg, (decide_on_promises_received q n lg).1 = n) ∧
        (∀ q lg, (receive_promise q n lg).1 =
                   set_received_promises
                     ({[ proposal_number q ]} ∪ received_promises n) n).
Proof.
  intros Hself Hnd Hin Hn Hup.
  rewrite (send_accept_heap _ _ _ _ _ _ Hn), Hself.
  rewrite (bool_decide_eq_true_2 (state n = UP)) by done. simpl.
  rewrite count_occ_NoDup, bool_decide_eq_true_2 by done. simpl.
  eexists. split; [done|]. split; [|split; done].
  intros key. rewrite node_call_accept, decide_True by done.
  rewrite receive_accept_up by done. simpl.
  case_decide as Hkey.
  - subst key. by rewrite lookup_insert_eq.
  - by rewrite lookup_insert_ne.
Qed.

Lemma accept_phase_carries_callers_value_witness :
  let p1 := mkProposal 1 1 "v1" in
  let p2 := mkProposal 2 2 "v2" in
  let w := run (example_round 0 [1; 2]%nat p1) (make_cluster 1 3 3) in
  ∃ n', heap (send_accept 1 [0; 1; 2]%nat p2 w) !! 2%nat = Some n' ∧
        acceptance_counts n' !! (2, "v2") = Some 1 ∧
        acceptance_counts n' !! (2, "v1") = None.
Proof.
  intros p1 p2 w.
  pose (n := node_calls [CReceivePrepare p1; CSendPromise p1; CReceiveAccept p1;
                         CReceiveBroadcast p1] (__init__ 3 ACCEPTOR 3)).
  destruct (accept_phase_carries_callers_value 1 [0; 1; 2]%nat p2 w 2 n)
    as (n' & Hn' & Hcounts & _).
  - vm_compute; reflexivity.
  - apply NoDup_seq with (j := 0%nat) (n := 3%nat).
  - apply list_elem_of_In. simpl. tauto.
  - vm_compute; reflexivity.
  - reflexivity.
  - exists n'. split; [exact Hn'|]. split.
    + rewrite Hcounts. vm_compute. reflexivity.
    + rewrite Hcounts. vm_compute. reflexivity.
Defined.

(** C2 as stated fails.  After a first round has made the acceptors record
    "v1", a second proposer prepares with ballot 2 and its own value "v2".
    The acceptor at address 2 reports "v1" in its promise, yet the Accept
    phase delivers the key [(2, "v2")], never [(2, "v1")], and the round ends
    with "v2" recorded in place of "v1". *)
Lemma reported_value_is_not_adopted :
  let p1 := mkProposal 1 1 "v1" in
  let p2 := mkProposal 2 2 "v2" in
  let w1 := run (example_round 0 [1; 2]%nat p1) (make_cluster 1 3 3) in
  let w2 := run (example_round 1 [0; 2]%nat p2) w1 in
  (last_consensus <$> heap w1 !! 2%nat) = Some (Some "v1") ∧
  (λ n, (send_promise p2 n (log w1)).2) <$> heap w1 !! 2%nat
    = Some (Some (Promise.mk 2 3 "v1" true)) ∧
  (acceptance_counts <$> heap w2 !! 2%nat)
    = Some {[ (1, "v1") := 1; (2, "v2") := 1 ]} ∧
  (last_consensus <$> heap w2 !! 2%nat) = Some (Some "v2").
Proof. intros p1 p2 w1 w2. repeat split; vm_compute; reflexivity. Qed.

Lemma emits_value (o : Op) (c : Call) :
  emits o c → call_value c = None ∨ call_value c = op_value o.
Proof.
  destruct o; simpl; intros ->; simpl; auto.
Qed.

Lemma node_call_counts_key (n : PaxosNode) (c : Call) (key : Z * string) :
  is_Some (acceptance_counts (node_call n c) !! key) →
  is_Some (acceptance_counts n !! key) ∨ call_value c = Some key.2.
Proof.
  destruct (call_accept_or_not c) as [[p ->]|Hc].
  - rewrite node_call_accept. case_decide as Hup; [|by left].
    rewrite receive_accept_up by done. simpl.
    destruct (decide ((proposal_number p, value p) = key)) as [<-|Hne].
    + by right.
    + rewrite lookup_insert_ne by done. by left.
  - rewrite node_call_counts_other by done. by left.
Qed.

(** A node that only sees calls carrying the value [v] records no other
    value and counts no key with another value. *)
Lemma node_calls_single_value (v : string) (cs : list Call) (n : PaxosNode) :
  Forall (λ c, call_value c = None ∨ call_value c = Some v) cs →
  (last_consensus n = None ∨ last_consensus n = Some v) →
  (∀ key, is_Some (acceptance_counts n !! key) → key.2 = v) →
  let n' := node_calls cs n in
  (last_consensus n' = None ∨ last_consensus n' = Some v) ∧
  (∀ key, is_Some (acceptance_counts n' !! key) → key.2 = v).
Proof.
  revert n. induction cs as [|c cs IH]; intros n Hcs Hlast Hkeys; simpl; [done|].
  apply Forall_cons in Hcs as [Hc Hcs].
  apply IH; [done| |].
  - destruct (node_call_last_consensus n c) as [->|[_ ->]]; [done|]. destruct Hc; auto.
  - intros key Hkey. apply node_call_counts_key in Hkey as [Hkey|Hkey]; [by apply Hkeys|].
    destruct Hc as [Hc|Hc]; congruence.
Qed.

(** C1, as the code has it.  In an execution that starts from nodes that
    have recorded and counted nothing, and in which every Accept, every
    broadcast and every [set_consensus] carries the same value [v], every
    node that has recorded a value has recorded [v] itself, so any two nodes
    that have decided agree, and every key a node has counted acceptances for
    carries [v]. *)
Theorem single_value_executions_agree
    (ops : list Op) (w : World) (v : string)
    (a1 a2 : nat) (n1 n2 : PaxosNode) (v1 v2 : string) :
  Forall undecided (heap w) →
  Forall (λ o, op_value o = None ∨ op_value o = Some v) ops →
  heap (run ops w) !! a1 = Some n1 →
  heap (run ops w) !! a2 = Some n2 →
  last_consensus n1 = Some v1 →
  last_consensus n2 = Some v2 →
  v1 = v ∧
  v2 = v ∧
  v1 = v2 ∧
  (∀ key, is_Some (acceptance_counts n1 !! key) → key.2 = v) ∧
  (∀ key, is_Some (acceptance_counts n2 !! key) → key.2 = v).
Proof.
  intros Hw Hops H1 H2 Hv1 Hv2.
  assert (∀ a n, heap (run ops w) !! a = Some n →
            (last_consensus n = None ∨ last_consensus n = Some v) ∧
            (∀ key, is_Some (acceptance_counts n !! key) → key.2 = v)) as Hinv.
  { intros a n Hn. apply run_from in Hn as (n0 & cs & Hn0 & -> & Hem).
    destruct (proj1 (Forall_lookup _ _) Hw a n0 Hn0) as [Hnone Hempty].
    apply node_calls_single_value.
    - eapply Forall_impl; [exact Hem|]. intros c (o & Ho & Hc).
      rewrite Forall_forall in Hops. specialize (Hops o Ho).
      apply emits_value in Hc as [Hc|Hc]; [by left|].
      rewrite Hc. exact Hops.
    - by left.
    - intros key [c Hc]. by rewrite Hempty, lookup_empty in Hc. }
  destruct (Hinv a1 n1 H1) as [Hl1 Hk1], (Hinv a2 n2 H2) as [Hl2 Hk2].
  assert (v1 = v) as Hv1v by (destruct Hl1 as [Hl1|Hl1]; congruence).
  assert (v2 = v) as Hv2v by (destruct Hl2 as [Hl2|Hl2]; congruence).
  split; [done|]. split; [done|]. split; [congruence|done].
Qed.

Lemma single_value_executions_agree_witness :
  let p := mkProposal 1 1 "value1" in
  let ops := example_round 0 [1; 2]%nat p in
  let w := make_cluster 1 3 3 in
  let n1 := node_calls [CReceivePrepare p; CSendPromise p; CReceiveAccept p;
                        CReceiveBroadcast p] (__init__ 2 ACCEPTOR 3) in
  let n2 := node_calls [CReceivePrepare p; CSendPromise p; CReceiveAccept p;
                        CReceiveBroadcast p] (__init__ 3 ACCEPTOR 3) in
  Forall undecided (heap w) ∧
  Forall (λ o, op_value o = None ∨ op_value o = Some "value1") ops ∧
  heap (run ops w) !! 1%nat = Some n1 ∧
  heap (run ops w) !! 2%nat = Some n2 ∧
  last_consensus n1 = Some "value1" ∧
  last_consensus n2 = Some "value1" ∧
  (∀ key, is_Some (acceptance_counts n1 !! key) → key.2 = "value1").
Proof.
  intros p ops w n1 n2.
  assert (Forall undecided (heap w)) as Hw by (repeat constructor).
  assert (Forall (λ o, op_value o = None ∨ op_value o = Some "value1") ops) as Hops.
  { repeat constructor; (by left) || (by right). }
  assert (heap (run ops w) !! 1%nat = Some n1) as H1 by (vm_compute; reflexivity).
  assert (heap (run ops w) !! 2%nat = Some n2) as H2 by (vm_compute; reflexivity).
  destruct (single_value_executions_agree ops w "value1" 1 2 n1 n2
              "value1" "value1" Hw Hops H1 H2 eq_refl eq_refl)
    as (_ & _ & _ & Hkeys & _).
  repeat (split; [assumption || reflexivity|]). exact Hkeys.
Defined.

(** C1 as stated fails.  In a cluster of three (majority 2), the node at
    address 1 is down while a proposer sends the Accept of [(1, "a")] twice,
    then the node at address 0 is down while another proposer sends the
    Accept of [(2, "b")] twice.  The node at address 2 has counted a majority
    of acceptances for both proposals, whose values differ, and the nodes at
    addresses 0 and 1 have recorded different values.  The same happens with
    all nodes up when the driver of the examples runs two rounds: both
    proposals gather three acceptances over the cluster, and the nodes at
    addresses 1 and 2 end with different recorded values. *)
Lemma two_values_reach_quorum :
  let pa := mkProposal 1 1 "a" in
  let pb := mkProposal 3 2 "b" in
  let nodes := [0; 1; 2]%nat in
  let w :=
    run [OpCall 1 (CAssignState DOWN);
         OpSendAccept 0 nodes pa; OpSendAccept 0 nodes pa;
         OpCall 1 (CAssignState UP); OpCall 0 (CAssignState DOWN);
         OpSendAccept 2 nodes pb; OpSendAccept 2 nodes pb]
        (make_cluster 1 3 3) in
  let p1 := mkProposal 1 1 "v1" in
  let p2 := mkProposal 2 2 "v2" in
  let w' :=
    run (example_round 0 [1; 2]%nat p1 ++ example_round 1 [0; 2]%nat p2)
        (make_cluster 1 3 3) in
  ((quorum_size <$> heap w !! 2%nat) = Some 2 ∧
   ((λ n, acceptances n (1, "a")) <$> heap w !! 2%nat) = Some 2 ∧
   ((λ n, acceptances n (2, "b")) <$> heap w !! 2%nat) = Some 2 ∧
   (last_consensus <$> heap w !! 0%nat) = Some (Some "a") ∧
   (last_consensus <$> heap w !! 1%nat) = Some (Some "b")) ∧
  (total_acceptances (1, "v1") w' = 3 ∧
   total_acceptances (2, "v2") w' = 3 ∧
   (last_consensus <$> heap w' !! 1%nat) = Some (Some "v1") ∧
   (last_consensus <$> heap w' !! 2%nat) = Some (Some "v2")).
Proof. intros pa pb nodes w p1 p2 w'. repeat split; vm_compute; reflexivity. Qed.

(** * The assertions of [test_paxos.py], replayed on the model *)

Module test_paxos.

(** [test_majority_consensus]: four promises, a majority of five. *)
Example test_majority_consensus :
  let p := mkProposal 1 1 "test_value" in
  let w := send_prepare 0 (seq 0 5) p (make_cluster 1 5 5) in
  let promises := (collect_promises [1; 2; 3; 4]%nat p w).2 in
  Z.of_nat (length promises) = 4 ∧ 5 `div` 2 + 1 ≤ Z.of_nat (length promises).
Proof. split; vm_compute; [reflexivity|discriminate]. Qed.

(** [test_node_down_prevents_consensus]: with three nodes down a single
    promise is collected. *)
Example test_node_down_prevents_consensus :
  let p := mkProposal 1 1 "value1" in
  let w := run [OpCall 2 (CAssignState DOWN); OpCall 3 (CAssignState DOWN);
                OpCall 4 (CAssignState DOWN); OpSendPrepare 0 (seq 0 5) p]
               (make_cluster 1 5 5) in
  let promises := (collect_promises [1]%nat p w).2 in
  Z.of_nat (length promises) = 1 ∧ Z.of_nat (length promises) < 5 `div` 2 + 1.
Proof. split; vm_compute; reflexivity. Qed.

(** [test_proposer_goes_down]: no node has received the Prepare. *)
Example test_proposer_goes_down :
  let p := mkProposal 1 1 "value1" in
  let w := run [OpCall 0 (CAssignState DOWN); OpSendPrepare 0 (seq 0 5) p]
               (make_cluster 1 5 5) in
  received_promises <$> heap w = [∅; ∅; ∅; ∅; ∅] ∧
  action <$> entries (log w) = ["PrepareNotSent"].
Proof. split; vm_compute; reflexivity. Qed.

(** [test_acceptor_goes_down_during_prepare] *)
Example test_acceptor_goes_down_during_prepare :
  let p := mkProposal 1 1 "value1" in
  let w := run [OpCall 1 (CAssignState DOWN); OpSendPrepare 0 (seq 0 5) p]
               (make_cluster 1 5 5) in
  received_promises <$> heap w = [{[ 1 ]}; ∅; {[ 1 ]}; {[ 1 ]}; {[ 1 ]}].
Proof. vm_compute; reflexivity. Qed.

(** [test_consensus_value_persistence]: one Accept broadcast over three
    nodes records nothing, so the assertion of the test is never reached. *)
Example test_consensus_value_persistence :
  let p := mkProposal 1 1 "persistent_value" in
  let w := run [OpSendPrepare 0 (seq 0 3) p; OpSendAccept 0 (seq 0 3) p]
               (make_cluster 1 3 3) in
  last_consensus <$> heap w = [None; None; None].
Proof. vm_compute; reflexivity. Qed.

(** [test_broadcast_reception] *)
Example test_broadcast_reception :
  let p := mkProposal 1 1 "broadcast_value" in
  let w := run ((λ a, OpCall a (CReceiveBroadcast p)) <$> (seq 0 3))
               (make_cluster 1 3 3) in
  last_consensus <$> heap w = replicate 3 (Some "broadcast_value").
Proof. vm_compute; reflexivity. Qed.

(** [test_consensus_flag_reset] *)
Example test_consensus_flag_reset :
  let n := node_calls [CSetConsensus "test_value"; CResetConsensusReached]
                      (__init__ 1 ACCEPTOR 3) in
  last_consensus n = Some "test_value" ∧ consensus_reached n = false.
Proof. split; reflexivity. Qed.

(** [test_full_paxos_round]: five acceptances over the cluster. *)
Example test_full_paxos_round :
  let p := mkProposal 1 1 "final_value" in
  let w := send_prepare 0 (seq 0 5) p (make_cluster 1 5 5) in
  let '(w, promises) := collect_promises [1; 2; 3; 4]%nat p w in
  let w := send_accept 0 (seq 0 5) p w in
  Z.of_nat (length promises) = 4 ∧
  total_acceptances (1, "final_value") w = 5 ∧
  last_consensus <$> heap w = replicate 5 None.
Proof. vm_compute. repeat split. Qed.

End test_paxos.

(** * Further properties of the code *)

(** ** The logger *)

Lemma extends_refl (lg : PaxosLogger) : extends lg lg.
Proof. split; [done|]. exists []. by rewrite app_nil_r. Qed.

Lemma extends_trans (lg1 lg2 lg3 : PaxosLogger) :
  extends lg1 lg2 → extends lg2 lg3 → extends lg1 lg3.
Proof.
  intros [Hr12 (es1 & He1 & Hs1)] [Hr23 (es2 & He2 & Hs2)]. split; [congruence|].
  exists (es1 ++ es2). split.
  - by rewrite He2, He1, app_assoc.
  - apply Forall_app. split; [done|]. by rewrite <- Hr12.
Qed.

Lemma extends_record_log (lg : PaxosLogger) fi fr fs ti tr ts act av cv reached :
  extends lg (record_log lg fi fr fs ti tr ts act av cv reached).
Proof.
  split; [done|]. eexists. split; [done|]. by repeat constructor.
Qed.

Lemma decide_loop_extends (n : PaxosNode) (q : Z) (l : list Z) (cc : gmap Z Z)
    (lg : PaxosLogger) :
  extends lg (decide_loop n q l cc lg).
Proof.
  revert cc. induction l as [|b l IH]; intros cc; simpl; [apply extends_refl|].
  case_decide; [apply extends_record_log|apply IH].
Qed.

Ltac extends_tac :=
  repeat match goal with
         | |- extends ?lg ?lg => apply extends_refl
         | |- extends _ (record_log ?x _ _ _ _ _ _ _ _ _ _) =>
             apply (extends_trans _ x); [|apply extends_record_log]
         | |- extends _ (decide_loop _ _ _ _ ?x) =>
             apply (extends_trans _ x); [|apply decide_loop_extends]
         end.

(** Every method only appends to the log. *)
Lemma do_call_extends (c : Call) (n : PaxosNode) (lg : PaxosLogger) :
  extends lg (do_call c n lg).2.
Proof.
  destruct c; simpl;
    unfold receive_broadcast, receive_accept, receive_promise,
      decide_on_promises_received, receive_prepare, send_promise, set_consensus,
      reset_consensus_reached, log_state_change, go_down;
    simpl; split_cases; extends_tac.
Qed.

Lemma call_log (a : nat) (m : Method) (w : World) :
  log (call a m w) =
    match heap w !! a with
    | Some n => (m n (log w)).2
    | None => log w
    end.
Proof. unfold call. destruct (heap w !! a); [|done]. by destruct (m _ _). Qed.

Lemma call_extends (a : nat) (c : Call) (w : World) :
  extends (log w) (log (call a (do_call c) w)).
Proof.
  rewrite call_log. destruct (heap w !! a); [apply do_call_extends|apply extends_refl].
Qed.

Lemma send_prepare_body_extends (self : nat) (p : Proposal) (w : World) (node : nat) :
  extends (log w) (log (send_prepare_body self p w node)).
Proof.
  unfold send_prepare_body, log_about. destruct (is_up w node).
  - pose proof (call_extends node (CReceivePrepare p) w) as Hcall. simpl in Hcall.
    repeat case_match; simpl; extends_tac; done.
  - repeat case_match; simpl; extends_tac.
Qed.

Lemma send_accept_body_extends (self : nat) (p : Proposal) (w : World) (node : nat) :
  extends (log w) (log (send_accept_body self p w node)).
Proof.
  unfold send_accept_body. destruct (is_up w node); [|apply extends_refl].
  eapply extends_trans; [|apply (call_extends node (CReceiveAccept p))].
  unfold log_about. repeat case_match; simpl; extends_tac.
Qed.

Lemma foldl_extends (body : World → nat → World) (nodes : list nat) (w : World) :
  (∀ w x, extends (log w) (log (body w x))) →
  extends (log w) (log (foldl body w nodes)).
Proof.
  intros Hbody. revert w. induction nodes as [|x xs IH]; intros w; simpl.
  - apply extends_refl.
  - eapply extends_trans; [apply Hbody|apply IH].
Qed.

Lemma step_extends (o : Op) (w : World) : extends (log w) (log (step w o)).
Proof.
  destruct o as [a c|self nodes p|self nodes p]; simpl.
  - apply call_extends.
  - unfold send_prepare. destruct (is_up w self).
    + apply foldl_extends. intros. apply send_prepare_body_extends.
    + unfold log_about. repeat case_match; simpl; extends_tac.
  - unfold send_accept. destruct (is_up w self); [|apply extends_refl].
    apply foldl_extends. intros. apply send_accept_body_extends.
Qed.

Lemma run_extends (ops : list Op) (w : World) : extends (log w) (log (run ops w)).
Proof.
  revert w. induction ops as [|o ops IH]; intros w; simpl.
  - apply extends_refl.
  - eapply extends_trans; [apply step_extends|apply IH].
Qed.

(** X1.  The log is append-only: whatever the drivers do to the cluster, the
    entries that were in the log stay where they are, the new ones come after
    them, each stamped with the round of the logger, and the round of the
    logger is not changed. *)
Theorem log_is_append_only (ops : list Op) (w : World) :
  round_getter (log (run ops w)) = round_getter (log w) ∧
  ∃ es, entries (log (run ops w)) = entries (log w) ++ es ∧
        Forall (λ e, round e = round_getter (log w)) es.
Proof. apply run_extends. Qed.

(** X2.  The setter of [round] accepts exactly the integers that are not
    negative.  When it accepts, the getter reads the value back, the entries
    recorded so far are untouched, and every entry a later execution records
    is stamped with the new round; otherwise [ValueError] is raised. *)
Theorem round_setter_spec (value : PyVal) (w : World) (ops : list Op) :
  match round_setter value (log w) with
  | Ok lg =>
      ∃ z, value = PyInt z ∧ 0 ≤ z ∧
           round_getter lg = z ∧
           entries lg = entries (log w) ∧
           ∃ es, entries (log (run ops {| heap := heap w; log := lg |}))
                   = entries (log w) ++ es ∧
                 Forall (λ e, round e = z) es
  | Raise e =>
      e = ValueError "Consensus round must be non-negative number" ∧
      ∀ z, value = PyInt z → z < 0
  end.
Proof.
  destruct value as [z|s]; simpl.
  - case_decide as Hz.
    + exists z. repeat split; try done.
      destruct (run_extends ops {| heap := heap w;
                                   log := {| _round := z; entries := entries (log w) |} |})
        as [_ (es & Hes & Hround)].
      by exists es.
    + split; [done|]. intros z' [= <-]. lia.
  - split; [done|]. intros z [=].
Qed.

(** X3.  A proposer that is not up sends nothing.  [send_prepare] changes no
    node and records a single entry, "PrepareNotSent" addressed to "N/A",
    which shows the sender as "DOWN" even when it is blocked; [send_accept]
    changes neither a node nor the log. *)
Theorem down_proposer_sends_nothing
    (self : nat) (nodes : list nat) (p : Proposal) (w : World) (me : PaxosNode) :
  heap w !! self = Some me →
  state me ≠ UP →
  heap (send_prepare self nodes p w) = heap w ∧
  log (send_prepare self nodes p w) =
    record_log (log w)
      (PyInt (node_id me)) (NodeRole_value (role me)) "DOWN"
      (PyStr "N/A") "N/A" "N/A" "PrepareNotSent" "N/A" "N/A" false ∧
  send_accept self nodes p w = w.
Proof.
  intros Hme Hst.
  assert (is_up w self = false) as Hup.
  { unfold is_up. rewrite Hme. by apply bool_decide_eq_false_2. }
  unfold send_prepare, send_accept, log_about. rewrite Hup, Hme. done.
Qed.

Lemma down_proposer_sends_nothing_witness :
  let p := mkProposal 1 1 "value1" in
  let w := call 0 (do_call (CAssignState BLOCKED)) (make_cluster 1 5 5) in
  let me := set_state BLOCKED (__init__ 1 ACCEPTOR 5) in
  heap (send_prepare 0 (seq 0 5) p w) = heap w ∧
  log (send_prepare 0 (seq 0 5) p w) =
    record_log (log w)
      (PyInt 1) "Acceptor" "DOWN"
      (PyStr "N/A") "N/A" "N/A" "PrepareNotSent" "N/A" "N/A" false ∧
  send_accept 0 (seq 0 5) p w = w.
Proof.
  intros p w me.
  apply (down_proposer_sends_nothing 0 (seq 0 5) p w me).
  - vm_compute; reflexivity.
  - simpl; discriminate.
Defined.

(** ** The prepare phase *)

Lemma receive_prepare_up (p : Proposal) (n : PaxosNode) :
  state n = UP →
  node_call n (CReceivePrepare p) =
    set_received_promises ({[ proposal_number p ]} ∪ received_promises n) n.
Proof.
  intros Hup. unfold node_call. simpl.
  rewrite receive_prepare_node. unfold send_promise. by rewrite decide_True.
Qed.

Lemma iter_receive_prepare (k : nat) (p : Proposal) (n : PaxosNode) :
  state n = UP →
  Nat.iter k (λ n, node_call n (CReceivePrepare p)) n =
    if decide (k = 0%nat) then n
    else set_received_promises ({[ proposal_number p ]} ∪ received_promises n) n.
Proof.
  intros Hup. induction k as [|k IH]; [done|].
  simpl. rewrite IH. destruct k as [|k]; simpl.
  - by apply receive_prepare_up.
  - rewrite receive_prepare_up by done. unfold set_received_promises. simpl.
    by rewrite (assoc_L (∪)), union_idemp_L.
Qed.

Lemma count_occ_zero (nodes : list nat) (a : nat) :
  count_occ Nat.eq_dec nodes a = 0%nat ↔ a ∉ nodes.
Proof. rewrite <- count_occ_not_In. by rewrite list_elem_of_In. Qed.

Lemma send_prepare_node (self : nat) (nodes : list nat) (p : Proposal)
    (w : World) (a : nat) (n : PaxosNode) :
  heap w !! a = Some n →
  heap (send_prepare self nodes p w) !! a =
    Some (if is_up w self && bool_decide (state n = UP) && bool_decide (a ∈ nodes)
          then set_received_promises
                 ({[ proposal_number p ]} ∪ received_promises n) n
          else n).
Proof.
  intros Hn. rewrite (send_prepare_heap _ _ _ _ _ _ Hn).
  destruct (is_up w self); simpl; [|done].
  case_bool_decide as Hup; simpl; [|done].
  rewrite iter_receive_prepare by done.
  case_decide as Hk; case_bool_decide as Hin; try done.
  - by apply count_occ_zero in Hk.
  - by apply count_occ_zero in Hin.
Qed.

Lemma send_prepare_length (self : nat) (nodes : list nat) (p : Proposal) (w : World) :
  length (heap (send_prepare self nodes p w)) = length (heap w).
Proof. apply (run_length [OpSendPrepare self nodes p]). Qed.

Lemma send_prepare_is_up (self : nat) (nodes : list nat) (p : Proposal)
    (w : World) (a : nat) :
  is_up (send_prepare self nodes p w) a = is_up w a.
Proof.
  unfold is_up. destruct (heap w !! a) as [n|] eqn:Hn.
  - rewrite (send_prepare_node _ _ _ _ _ _ Hn). by destruct (_ && _).
  - apply lookup_ge_None in Hn.
    rewrite (proj2 (lookup_ge_None _ _)); [done|].
    by rewrite send_prepare_length.
Qed.

(** X4.  The prepare phase touches nothing but the promises.  After
    [send_prepare], a node that is up and among [nodes] has the proposal
    number added to [received_promises] and is otherwise as it was, however
    often its address occurs in [nodes]; every other node is unchanged.
    Sending the same Prepare a second time changes no node. *)
Theorem send_prepare_only_adds_promise
    (self : nat) (nodes : list nat) (p : Proposal) (w : World)
    (a : nat) (n : PaxosNode) :
  heap w !! a = Some n →
  heap (send_prepare self nodes p w) !! a =
    Some (if is_up w self && bool_decide (state n = UP) && bool_decide (a ∈ nodes)
          then set_received_promises
                 ({[ proposal_number p ]} ∪ received_promises n) n
          else n) ∧
  heap (send_prepare self nodes p (send_prepare self nodes p w)) =
    heap (send_prepare self nodes p w).
Proof.
  intros Hn. split; [by apply send_prepare_node|].
  apply list_eq. intros b.
  destruct (heap w !! b) as [m|] eqn:Hm.
  - pose proof (send_prepare_node self nodes p w b m Hm) as H1.
    rewrite (send_prepare_node self nodes p _ b _ H1), H1.
    rewrite send_prepare_is_up.
    destruct (is_up w self); simpl; [|done].
    destruct (decide (state m = UP)) as [Hup|Hup].
    + destruct (bool_decide (b ∈ nodes)); simpl;
        repeat (rewrite (bool_decide_eq_true_2 (state m = UP)) by done; simpl);
        [|done].
      unfold set_received_promises. simpl.
      by rewrite (assoc_L (∪)), union_idemp_L.
    + repeat (rewrite (bool_decide_eq_false_2 (state m = UP)) by done; simpl).
      done.
  - apply lookup_ge_None in Hm.
    rewrite !(proj2 (lookup_ge_None _ _)); [done| |].
    + by rewrite send_prepare_length.
    + by rewrite !send_prepare_length.
Qed.

Lemma send_prepare_only_adds_promise_witness :
  let p := mkProposal 1 7 "value1" in
  let w := send_accept 0 [0; 1; 2]%nat p (make_cluster 1 3 3) in
  let n := (receive_accept p (__init__ 2 ACCEPTOR 3) (mkLogger 1 [])).1 in
  heap w !! 1%nat = Some n ∧
  heap (send_prepare 0 [1; 1; 2]%nat p w) !! 1%nat =
    Some (set_received_promises {[ 7 ]} n) ∧
  heap (send_prepare 0 [1; 1; 2]%nat p (send_prepare 0 [1; 1; 2]%nat p w)) =
    heap (send_prepare 0 [1; 1; 2]%nat p w).
Proof.
  intros p w n.
  assert (heap w !! 1%nat = Some n) as Hn by (vm_compute; reflexivity).
  destruct (send_prepare_only_adds_promise 0 [1; 1; 2]%nat p w 1 n Hn) as [Hnode Hidem].
  split; [exact Hn|]. split; [|exact Hidem].
  rewrite Hnode. vm_compute. reflexivity.
Defined.

Lemma count_action_record_log (act : string) (lg : PaxosLogger)
    fi fr fs ti tr ts act' av cv reached :
  count_action act (record_log lg fi fr fs ti tr ts act' av cv reached) =
    (count_action act lg + if decide (act' = act) then 1 else 0)%nat.
Proof.
  unfold count_action, record_log. simpl.
  rewrite filter_app, length_app, filter_cons, filter_nil. simpl.
  by case_decide.
Qed.

(** X5.  [receive_promise] does not look at the state of the node: up or
    not, the node gets the proposal number added to [received_promises] and
    one "PromiseReceive" entry is recorded.  The count of promises that
    follows visits each promised ballot once, so it reports
    "ConsensusAchieved" exactly when the node is configured with at most one
    member, and never in a cluster of two or more, however many promises the
    node holds. *)
Theorem receive_promise_report (p : Proposal) (n : PaxosNode) (lg : PaxosLogger) :
  (receive_promise p n lg).1 =
    set_received_promises ({[ proposal_number p ]} ∪ received_promises n) n ∧
  count_action "PromiseReceive" (receive_promise p n lg).2 =
    S (count_action "PromiseReceive" lg) ∧
  count_action "ConsensusAchieved" (receive_promise p n lg).2 =
    (count_action "ConsensusAchieved" lg +
     if decide (totalnodecount n ≤ 1)%Z then 1 else 0)%nat.
Proof.
  unfold receive_promise. rewrite decide_on_promises_received_spec. simpl.
  split; [done|].
  destruct (elements ({[ proposal_number p ]} ∪ received_promises n))
    as [|b l] eqn:Hel.
  { apply elements_empty_inv, leibniz_equiv in Hel.
    assert (proposal_number p ∈ ({[ proposal_number p ]} ∪ received_promises n))
      as Hin by (apply elem_of_union; left; by apply elem_of_singleton).
    rewrite Hel in Hin. by apply not_elem_of_empty in Hin. }
  assert (totalnodecount n `div` 2 + 1 ≤ 1 ↔ totalnodecount n ≤ 1) as Hq.
  { split; intros H; Z.div_mod_to_equations; lia. }
  destruct (decide (totalnodecount n `div` 2 + 1 ≤ 1)) as [Hle|Hgt].
  - rewrite (decide_True (P := totalnodecount n ≤ 1)) by (by apply Hq).
    rewrite !count_action_record_log. simpl. split; lia.
  - rewrite (decide_False (P := totalnodecount n ≤ 1)) by (by rewrite <- Hq).
    rewrite !count_action_record_log. simpl. split; lia.
Qed.

(** ** The accept phase *)

Lemma node_call_acceptances_up (n : PaxosNode) (c : Call) (key : Z * string) :
  state n = UP →
  acceptances (node_call n c) key =
    acceptances n key + (if is_accept_of key c then 1 else 0).
Proof.
  intros Hup. destruct (call_accept_or_not c) as [[p ->]|Hc].
  - rewrite node_call_accept, decide_True by done.
    rewrite receive_accept_up by done. unfold acceptances. simpl.
    destruct (decide ((proposal_number p, value p) = key)) as [<-|Hne].
    + rewrite bool_decide_eq_true_2 by done. by rewrite lookup_insert_eq.
    + rewrite bool_decide_eq_false_2 by done.
      rewrite lookup_insert_ne by done. lia.
  - unfold acceptances. rewrite node_call_counts_other by done.
    destruct c; simpl; try lia. by destruct (Hc proposal).
Qed.

Lemma node_calls_state (cs : list Call) (n : PaxosNode) :
  Forall (λ c, ∀ st, c ≠ CAssignState st) cs →
  state (node_calls cs n) = state n.
Proof.
  revert n. induction cs as [|c cs IH]; intros n Hcs; [done|].
  apply Forall_cons in Hcs as [Hc Hcs]. simpl.
  rewrite IH by done. by apply node_call_state.
Qed.

(** X6.  On a node that is up and whose [state] is not reassigned, the count
    kept for a key is exact: after any sequence of calls it is the count the
    node started with plus the number of Accepts of that key the node has
    received. *)
Theorem acceptance_count_is_exact
    (cs : list Call) (n : PaxosNode) (key : Z * string) :
  state n = UP →
  Forall (λ c, ∀ st, c ≠ CAssignState st) cs →
  acceptances (node_calls cs n) key = acceptances n key + accepts_received key cs.
Proof.
  intros Hup. induction cs as [|c cs IH] using rev_ind; intros Hcs.
  - unfold accepts_received. simpl. lia.
  - apply Forall_app in Hcs as [Hcs Hc].
    rewrite node_calls_snoc, accepts_received_snoc.
    rewrite node_call_acceptances_up by (by rewrite node_calls_state).
    rewrite IH by done. lia.
Qed.

Lemma acceptance_count_is_exact_witness :
  let pa := mkProposal 1 1 "a" in
  let pb := mkProposal 2 2 "b" in
  let cs := [CReceiveAccept pa; CReceivePrepare pb; CReceiveAccept pb;
             CReceiveAccept pa; CReceiveBroadcast pb; CReceiveAccept pa] in
  let n := __init__ 1 ACCEPTOR 5 in
  acceptances (node_calls cs n) (1, "a") = 3 ∧
  acceptances (node_calls cs n) (2, "b") = 1.
Proof.
  intros pa pb cs n.
  assert (Forall (λ c, ∀ st, c ≠ CAssignState st) cs) as Hcs
    by (repeat constructor; discriminate).
  split.
  - rewrite (acceptance_count_is_exact cs n (1, "a") eq_refl Hcs). reflexivity.
  - rewrite (acceptance_count_is_exact cs n (2, "b") eq_refl Hcs). reflexivity.
Defined.

Lemma send_accept_is_up (self : nat) (nodes : list nat) (p : Proposal)
    (w : World) (a : nat) :
  is_up (send_accept self nodes p w) a = is_up w a.
Proof.
  unfold is_up. destruct (heap w !! a) as [n|] eqn:Hn.
  - rewrite (send_accept_heap _ _ _ _ _ _ Hn).
    destruct (is_up w self); simpl; [|done].
    destruct (decide (state n = UP)) as [Hup|Hup].
    + rewrite (bool_decide_eq_true_2 (state n = UP)) by done.
      rewrite iter_node_calls, node_calls_state.
      { by rewrite (bool_decide_eq_true_2 (state n = UP)). }
      apply Forall_replicate. discriminate.
    + rewrite (bool_decide_eq_false_2 (state n = UP)) by done. simpl.
      by apply bool_decide_eq_false_2.
  - apply lookup_ge_None in Hn.
    rewrite (proj2 (lookup_ge_None _ _)); [done|].
    pose proof (run_length [OpSendAccept self nodes p] w) as Hlen.
    simpl in Hlen. by rewrite Hlen.
Qed.

(** One Accept broadcast, seen from a receiver that is up and occurs once. *)
Lemma send_accept_once (self : nat) (nodes : list nat) (p : Proposal)
    (w : World) (a : nat) (n : PaxosNode) :
  is_up w self = true → NoDup nodes → a ∈ nodes →
  heap w !! a = Some n → state n = UP →
  heap (send_accept self nodes p w) !! a = Some (node_call n (CReceiveAccept p)).
Proof.
  intros Hself Hnd Hin Hn Hup.
  rewrite (send_accept_heap _ _ _ _ _ _ Hn), Hself.
  rewrite (bool_decide_eq_true_2 (state n = UP)) by done. simpl.
  by rewrite count_occ_NoDup, bool_decide_eq_true_2 by done.
Qed.

Lemma node_call_accept_last (n : PaxosNode) (p : Proposal) :
  state n = UP →
  last_consensus (node_call n (CReceiveAccept p)) =
    if bool_decide (quorum_size n
                    ≤ acceptances n (proposal_number p, value p) + 1)
    then Some (value p)
    else last_consensus n.
Proof.
  intros Hup. rewrite node_call_accept, decide_True by done.
  by rewrite receive_accept_up.
Qed.

(** X7.  The only way the accept phase decides is by repetition.  When the
    same Accept is broadcast [k] times to distinct nodes, a receiver that is
    up has its count for the key raised by [k], and it records the value
    exactly when [k] is at least 1 and the count has reached
    [totalnodecount // 2 + 1]; otherwise its recorded value is what it
    was. *)
Theorem repeated_accept_decides_at_quorum
    (k : nat) (self : nat) (nodes : list nat) (p : Proposal) (w : World)
    (a : nat) (n : PaxosNode) :
  is_up w self = true →
  NoDup nodes →
  a ∈ nodes →
  heap w !! a = Some n →
  state n = UP →
  let key := (proposal_number p, value p) in
  ∃ n', heap (run (replicate k (OpSendAccept self nodes p)) w) !! a = Some n' ∧
        acceptances n' key = acceptances n key + Z.of_nat k ∧
        last_consensus n' =
          if bool_decide (0 < k)%nat &&
             bool_decide (quorum_size n ≤ acceptances n key + Z.of_nat k)
          then Some (value p)
          else last_consensus n.
Proof.
  intros Hself Hnd Hin Hn Hup key.
  revert w n Hself Hn Hup. induction k as [|k IH]; intros w n Hself Hn Hup.
  - exists n. simpl. split; [done|]. split; [lia|done].
  - simpl.
    pose proof (send_accept_once self nodes p w a n Hself Hnd Hin Hn Hup) as H1.
    assert (state (node_call n (CReceiveAccept p)) = UP) as Hup1
      by (by rewrite receive_accept_state).
    destruct (IH _ _ (eq_trans (send_accept_is_up self nodes p w self) Hself) H1 Hup1)
      as (n' & Hn' & Hcount & Hlast).
    exists n'. split; [exact Hn'|].
    rewrite (node_call_acceptances_up n (CReceiveAccept p) key Hup) in Hcount, Hlast.
    rewrite node_call_accept_last in Hlast by done. fold key in Hlast.
    assert (quorum_size (node_call n (CReceiveAccept p)) = quorum_size n) as Hq.
    { unfold quorum_size. by destruct (node_call_frame n (CReceiveAccept p)) as (_ & -> & _). }
    rewrite Hq in Hlast.
    assert (is_accept_of key (CReceiveAccept p) = true) as Hacc
      by (by apply bool_decide_eq_true_2).
    rewrite Hacc in Hcount, Hlast.
    split; [lia|].
    rewrite Hlast.
    replace (acceptances n key + 1 + Z.of_nat k)
      with (acceptances n key + Z.of_nat (S k)) by lia.
    destruct (decide (0 < k)%nat) as [Hk|Hk].
    + rewrite (bool_decide_eq_true_2 (0 < k)%nat) by done. simpl.
      destruct (decide (quorum_size n ≤ acceptances n key + Z.of_nat (S k)))
        as [Hq2|Hq2].
      * by rewrite !(bool_decide_eq_true_2 (quorum_size n ≤ _ + Z.of_nat (S k))).
      * rewrite !(bool_decide_eq_false_2 (quorum_size n ≤ _ + Z.of_nat (S k))) by done.
        rewrite bool_decide_eq_false_2 by lia. done.
    + rewrite (bool_decide_eq_false_2 (0 < k)%nat) by done. simpl.
      by replace k with 0%nat by lia.
Qed.

Lemma repeated_accept_decides_at_quorum_witness :
  let p := mkProposal 1 1 "value1" in
  let w := make_cluster 1 5 5 in
  (∃ n', heap (run (replicate 2 (OpSendAccept 0 (seq 0 5) p)) w) !! 3%nat = Some n' ∧
         acceptances n' (1, "value1") = 2 ∧ last_consensus n' = None) ∧
  (∃ n', heap (run (replicate 3 (OpSendAccept 0 (seq 0 5) p)) w) !! 3%nat = Some n' ∧
         acceptances n' (1, "value1") = 3 ∧ last_consensus n' = Some "value1").
Proof.
  intros p w.
  assert (NoDup (seq 0 5)) as Hnd by apply NoDup_seq.
  assert (3%nat ∈ seq 0 5) as Hin by (apply list_elem_of_In; simpl; tauto).
  assert (heap w !! 3%nat = Some (__init__ 4 ACCEPTOR 5)) as Hn by reflexivity.
  split.
  - destruct (repeated_accept_decides_at_quorum 2 0 (seq 0 5) p w 3 _
                eq_refl Hnd Hin Hn eq_refl) as (n' & Hn' & Hc & Hl).
    exists n'. split; [exact Hn'|]. split; [exact Hc|exact Hl].
  - destruct (repeated_accept_decides_at_quorum 3 0 (seq 0 5) p w 3 _
                eq_refl Hnd Hin Hn eq_refl) as (n' & Hn' & Hc & Hl).
    exists n'. split; [exact Hn'|]. split; [exact Hc|exact Hl].
Defined.

(** ** What executions keep *)

Lemma emits_assign (o : Op) (c : Call) :
  emits o c → assigns_state o = false → ∀ st, c ≠ CAssignState st.
Proof.
  destruct o as [a c'|self nodes p|self nodes p]; simpl; intros -> Ho st; try done.
  destruct c'; done.
Qed.

(** X8.  No operation creates or removes a node, and none changes the
    identity, the configured member count or the role of a node.  The state
    of a node changes only when the driver assigns it: in an execution
    without such an assignment every node keeps its state, calls of
    [go_down] included. *)
Theorem identity_and_state_are_kept
    (ops : list Op) (w : World) (a : nat) (n : PaxosNode) :
  heap w !! a = Some n →
  length (heap (run ops w)) = length (heap w) ∧
  ∃ n', heap (run ops w) !! a = Some n' ∧
        node_id n' = node_id n ∧
        totalnodecount n' = totalnodecount n ∧
        role n' = role n ∧
        (state n' = state n ∨ Exists (λ o, assigns_state o = true) ops).
Proof.
  intros Hn. split; [apply run_length|].
  destruct (run_at ops w a n Hn) as (cs & Hcs & Hem).
  exists (node_calls cs n). split; [done|].
  assert (∀ cs n, node_id (node_calls cs n) = node_id n ∧
                  totalnodecount (node_calls cs n) = totalnodecount n ∧
                  role (node_calls cs n) = role n) as Hframe.
  { clear. intros cs. induction cs as [|c cs IH]; intros n; [done|]. simpl.
    destruct (IH (node_call n c)) as (-> & -> & ->). apply node_call_frame. }
  destruct (Hframe cs n) as (Hid & Hcount & Hrole).
  repeat (split; [done|]).
  destruct (decide (Exists (λ o, assigns_state o = true) ops)) as [Hex|Hno];
    [by right|left].
  apply node_calls_state.
  eapply Forall_impl; [exact Hem|]. intros c (o & Ho & Hc).
  apply (emits_assign o c Hc).
  apply not_Exists_Forall in Hno; [|intros x; apply _].
  rewrite Forall_forall in Hno. specialize (Hno o Ho). simpl in Hno.
  by destruct (assigns_state o).
Qed.

Lemma identity_and_state_are_kept_witness :
  let p := mkProposal 1 1 "value1" in
  let ops := [OpCall 2 CGoDown; OpSendPrepare 0 (seq 0 3) p;
              OpSendAccept 0 (seq 0 3) p; OpCall 2 (CReceiveBroadcast p)] in
  ∃ n', heap (run ops (make_cluster 1 3 3)) !! 2%nat = Some n' ∧
        node_id n' = 3 ∧ totalnodecount n' = 3 ∧ role n' = ACCEPTOR ∧ state n' = UP.
Proof.
  intros p ops.
  destruct (identity_and_state_are_kept ops (make_cluster 1 3 3) 2
              (__init__ 3 ACCEPTOR 3) eq_refl)
    as (_ & n' & Hn' & Hid & Hcount & Hrole & Hstate).
  exists n'. repeat (split; [assumption|]).
  destruct Hstate as [Hstate|Hex]; [exact Hstate|].
  exfalso. apply Exists_exists in Hex as (o & Ho & Hassign).
  repeat (apply elem_of_cons in Ho as [->|Ho]; [discriminate Hassign|]).
  by apply elem_of_nil in Ho.
Defined.

Lemma node_call_counts_kept (n : PaxosNode) (c : Call) (key : Z * string) :
  is_Some (acceptance_counts n !! key) →
  is_Some (acceptance_counts (node_call n c) !! key).
Proof.
  intros Hkey. destruct (call_accept_or_not c) as [[p ->]|Hc].
  - rewrite node_call_accept. case_decide as Hup; [|done].
    rewrite receive_accept_up by done. simpl.
    destruct (decide ((proposal_number p, value p) = key)) as [<-|Hne].
    + by rewrite lookup_insert_eq.
    + by rewrite lookup_insert_ne.
  - by rewrite node_call_counts_other.
Qed.

Lemma node_call_counts_positive (n : PaxosNode) (c : Call) :
  (∀ key cnt, acceptance_counts n !! key = Some cnt → 1 ≤ cnt) →
  ∀ key cnt, acceptance_counts (node_call n c) !! key = Some cnt → 1 ≤ cnt.
Proof.
  intros Hpos key cnt. destruct (call_accept_or_not c) as [[p ->]|Hc].
  - rewrite node_call_accept. case_decide as Hup; [|apply Hpos].
    rewrite receive_accept_up by done. simpl.
    destruct (decide ((proposal_number p, value p) = key)) as [<-|Hne].
    + rewrite lookup_insert_eq. intros [= <-]. unfold acceptances.
      destruct (acceptance_counts n !! _) as [c0|] eqn:Hc0; simpl; [|lia].
      specialize (Hpos _ _ Hc0). lia.
    + rewrite lookup_insert_ne by done. apply Hpos.
  - rewrite node_call_counts_other by done. apply Hpos.
Qed.

(** X9.  Counts of acceptances only go up.  In an execution that starts from
    nodes whose stored counts are at least 1 (fresh nodes store none), every
    count a node stores is at least 1, and between two points of the
    execution no count of a node decreases and no key is forgotten. *)
Theorem acceptance_counts_only_grow
    (ops1 ops2 : list Op) (w : World) (a : nat) (n1 : PaxosNode) :
  Forall (λ n0, ∀ key cnt, acceptance_counts n0 !! key = Some cnt → 1 ≤ cnt)
         (heap w) →
  heap (run ops1 w) !! a = Some n1 →
  (∀ key cnt, acceptance_counts n1 !! key = Some cnt → 1 ≤ cnt) ∧
  ∃ n2, heap (run (ops1 ++ ops2) w) !! a = Some n2 ∧
        ∀ key, acceptances n1 key ≤ acceptances n2 key ∧
               (is_Some (acceptance_counts n1 !! key) →
                is_Some (acceptance_counts n2 !! key)).
Proof.
  intros Hw H1. split.
  - apply run_from in H1 as (n0 & cs & Hn0 & -> & _).
    pose proof (proj1 (Forall_lookup _ _) Hw a n0 Hn0) as Hpos. clear Hn0 Hw.
    revert n0 Hpos. induction cs as [|c cs IH]; intros n0 Hpos; [done|].
    simpl. apply IH. by apply node_call_counts_positive.
  - rewrite run_app. destruct (run_at ops2 _ a n1 H1) as (cs & Hcs & _).
    exists (node_calls cs n1). split; [done|]. clear. intros key.
    revert n1. induction cs as [|c cs IH]; intros n1; [done|]. simpl.
    destruct (IH (node_call n1 c)) as [Hle Hkept]. split.
    + pose proof (node_call_acceptances n1 c key). lia.
    + intros Hkey. by apply Hkept, node_call_counts_kept.
Qed.

Lemma acceptance_counts_only_grow_witness :
  let pa := mkProposal 1 1 "a" in
  let pb := mkProposal 2 2 "b" in
  let w := make_cluster 1 3 3 in
  let ops1 := [OpSendAccept 0 (seq 0 3) pa] in
  let ops2 := [OpSendAccept 1 (seq 0 3) pb; OpCall 2 (CReceiveBroadcast pb);
               OpSendAccept 0 (seq 0 3) pa] in
  ∃ n2, heap (run (ops1 ++ ops2) w) !! 2%nat = Some n2 ∧
        1 ≤ acceptances n2 (1, "a") ∧
        is_Some (acceptance_counts n2 !! (1, "a")).
Proof.
  intros pa pb w ops1 ops2.
  pose (n1 := node_calls [CReceiveAccept pa] (__init__ 3 ACCEPTOR 3)).
  assert (Forall (λ n0, ∀ key cnt, acceptance_counts n0 !! key = Some cnt → 1 ≤ cnt)
                 (heap w)) as Hw.
  { repeat constructor; intros key cnt Hk; simpl in Hk;
      by rewrite lookup_empty in Hk. }
  assert (heap (run ops1 w) !! 2%nat = Some n1) as H1 by (vm_compute; reflexivity).
  destruct (acceptance_counts_only_grow ops1 ops2 w 2 n1 Hw H1)
    as (_ & n2 & Hn2 & Hgrow).
  exists n2. split; [exact Hn2|].
  destruct (Hgrow (1, "a")) as [Hle Hkept]. split.
  - eapply Z.le_trans; [|exact Hle]. vm_compute. discriminate.
  - apply Hkept. vm_compute. eauto.
Defined.

Lemma node_call_promise_from (n : PaxosNode) (c : Call) (b : Z) :
  b ∈ received_promises (node_call n c) →
  b ∈ received_promises n ∨ call_ballot c = Some b.
Proof.
  destruct c; unfold_methods; simpl; split_cases; auto.
  all: intros [->%elem_of_singleton|Hb]%elem_of_union; auto.
Qed.

Lemma emits_ballot (o : Op) (c : Call) (b : Z) :
  emits o c → call_ballot c = Some b → op_ballot o = Some b.
Proof. destruct o; simpl; intros ->; simpl; done. Qed.

(** X10.  Promises come from Prepares.  In an execution that starts from
    nodes that hold no promise, every proposal number in a node's
    [received_promises] is the number of a proposal that some operation of
    the execution prepared or promised; an Accept, a broadcast or a decision
    never adds one. *)
Theorem promises_come_from_prepares
    (ops : list Op) (w : World) (a : nat) (n : PaxosNode) (b : Z) :
  Forall (λ n0, received_promises n0 = ∅) (heap w) →
  heap (run ops w) !! a = Some n →
  b ∈ received_promises n →
  Exists (λ o, op_ballot o = Some b) ops.
Proof.
  intros Hw Hn Hb.
  apply run_from in Hn as (n0 & cs & Hn0 & -> & Hem).
  pose proof (proj1 (Forall_lookup _ _) Hw a n0 Hn0) as Hempty. clear Hn0 Hw.
  assert (b ∈ received_promises n0 ∨ Exists (λ c, call_ballot c = Some b) cs)
    as [Hn0|Hex].
  { clear Hem Hempty. revert n0 Hb.
    induction cs as [|c cs IH]; intros n0 Hb; [by left|]. simpl in Hb.
    apply IH in Hb as [Hb|Hex]; [|right; by constructor 2].
    apply node_call_promise_from in Hb as [Hb|Hc]; [by left|].
    right. by constructor 1. }
  - rewrite Hempty in Hn0. by apply not_elem_of_empty in Hn0.
  - apply Exists_exists in Hex as (c & Hc & Hbal).
    rewrite Forall_forall in Hem. destruct (Hem c Hc) as (o & Ho & Hemit).
    apply Exists_exists. exists o. split; [done|]. by eapply emits_ballot.
Qed.

Lemma promises_come_from_prepares_witness :
  let p1 := mkProposal 1 1 "value1" in
  let p2 := mkProposal 2 2 "value2" in
  let ops := [OpSendPrepare 0 (seq 0 3) p1; OpSendAccept 0 (seq 0 3) p1;
              OpCall 1 (CReceivePromise p2)] in
  Exists (λ o, op_ballot o = Some 2) ops.
Proof.
  intros p1 p2 ops.
  pose (n := node_calls [CReceivePrepare p1; CReceiveAccept p1; CReceivePromise p2]
                        (__init__ 2 ACCEPTOR 3)).
  apply (promises_come_from_prepares ops (make_cluster 1 3 3) 1 n 2).
  - by repeat constructor.
  - vm_compute; reflexivity.
  - apply elem_of_elements. vm_compute. apply list_elem_of_In. simpl. tauto.
Defined.

(** X11.  The two handlers do not gate each other: on the node, receiving a
    Prepare and then an Accept gives the same node as receiving the Accept
    and then the Prepare, so an Accept is counted whether or not a Prepare
    came first.  Receiving the same Prepare twice is the same as receiving it
    once, and two Prepares can be received in either order. *)
Theorem prepare_and_accept_commute (p q q' : Proposal) (n : PaxosNode) :
  node_call (node_call n (CReceivePrepare q)) (CReceiveAccept p) =
    node_call (node_call n (CReceiveAccept p)) (CReceivePrepare q) ∧
  node_call (node_call n (CReceivePrepare q)) (CReceivePrepare q) =
    node_call n (CReceivePrepare q) ∧
  node_call (node_call n (CReceivePrepare q)) (CReceivePrepare q') =
    node_call (node_call n (CReceivePrepare q')) (CReceivePrepare q).
Proof.
  destruct (decide (state n = UP)) as [Hup|Hup].
  - assert (∀ r m, state m = UP → state (node_call m (CReceivePrepare r)) = UP)
      as Hprep by (intros r m Hm; by rewrite receive_prepare_state).
    assert (state (node_call n (CReceiveAccept p)) = UP) as Hacc
      by (by rewrite receive_accept_state).
    repeat split.
    + rewrite node_call_accept, decide_True by auto.
      rewrite receive_accept_up by auto.
      rewrite (node_call_accept n), decide_True by done.
      rewrite (receive_prepare_up q (receive_accept _ _ _).1)
        by (by rewrite node_call_accept, decide_True in Hacc).
      rewrite receive_accept_up by done.
      by rewrite receive_prepare_up.
    + rewrite (receive_prepare_up q (node_call _ _)) by auto.
      rewrite receive_prepare_up by done.
      unfold set_received_promises. simpl.
      by rewrite (assoc_L (∪)), union_idemp_L.
    + rewrite (receive_prepare_up q' (node_call _ _)) by auto.
      rewrite (receive_prepare_up q (node_call _ _)) by auto.
      rewrite !receive_prepare_up by done.
      unfold set_received_promises. simpl.
      by rewrite !(assoc_L (∪)), (comm_L (∪) {[ proposal_number q' ]}).
  - assert (∀ c, (∀ st, c ≠ CAssignState st) →
                 (∃ r, c = CReceivePrepare r) ∨ (∃ r, c = CReceiveAccept r) →
                 node_call n c = n) as Hskip.
    { intros c _ [[r ->]|[r ->]]; unfold node_call; simpl.
      - by rewrite receive_prepare_not_up.
      - by rewrite receive_accept_not_up. }
    rewrite !(Hskip (CReceivePrepare _)) by (try discriminate; eauto).
    rewrite !(Hskip (CReceiveAccept _)) by (try discriminate; eauto).
    rewrite !(Hskip (CReceivePrepare _)) by (try discriminate; eauto).
    done.
Qed.

(** ** The audit trail of the two broadcasts *)

Lemma actions_record_log (lg : PaxosLogger) fi fr fs ti tr ts act av cv reached :
  actions (record_log lg fi fr fs ti tr ts act av cv reached) = actions lg ++ [act].
Proof. unfold actions, record_log. simpl. by rewrite fmap_app. Qed.

Lemma receive_prepare_actions (p : Proposal) (n : PaxosNode) (lg : PaxosLogger) :
  state n = UP →
  actions (receive_prepare p n lg).2 =
    actions lg ++ ["PrepareReceive"; "PromiseSend"; "PromiseSend"].
Proof.
  intros Hup. unfold receive_prepare, send_promise.
  destruct (decide (state n = UP)) as [_|]; [|done].
  case_decide; simpl; rewrite !actions_record_log, <- !app_assoc; done.
Qed.

Lemma same_liveness_trail (w w' : World) (a : nat) :
  same_liveness w w' → prepare_trail w' a = prepare_trail w a.
Proof.
  intros Hsame. destruct (Hsame a) as [Hup Hsome]. unfold prepare_trail.
  rewrite Hup. destruct (is_up w a); [done|].
  destruct (decide (is_Some (heap w !! a))) as [H|H].
  - by rewrite decide_True by (by apply Hsome).
  - by rewrite decide_False by (by rewrite Hsome).
Qed.

Lemma send_prepare_body_liveness (self : nat) (p : Proposal) (w : World) (node : nat) :
  same_liveness w (send_prepare_body self p w node).
Proof.
  intros a. unfold is_up. rewrite send_prepare_body_heap.
  destruct (is_up w node && bool_decide (node = a)); [|done].
  destruct (heap w !! a) as [n|]; simpl; [|done].
  rewrite receive_prepare_state. split; [done|]. split; eauto.
Qed.

Lemma send_accept_body_liveness (self : nat) (p : Proposal) (w : World) (node : nat) :
  same_liveness w (send_accept_body self p w node).
Proof.
  intros a. unfold is_up. rewrite send_accept_body_heap.
  destruct (is_up w node && bool_decide (node = a)); [|done].
  destruct (heap w !! a) as [n|]; simpl; [|done].
  rewrite receive_accept_state. split; [done|]. split; eauto.
Qed.

Lemma is_up_Some (w : World) (a : nat) :
  is_up w a = true → ∃ n, heap w !! a = Some n ∧ state n = UP.
Proof.
  unfold is_up. destruct (heap w !! a) as [n|]; [|done].
  intros H%bool_decide_eq_true. eauto.
Qed.

Lemma send_prepare_body_actions (self : nat) (p : Proposal) (w : World) (node : nat) :
  is_Some (heap w !! self) →
  actions (log (send_prepare_body self p w node)) =
    actions (log w) ++ prepare_trail w node.
Proof.
  intros [me Hme]. unfold send_prepare_body, prepare_trail.
  destruct (is_up w node) eqn:Hnode.
  - apply is_up_Some in Hnode as (n & Hn & Hup).
    unfold log_about. rewrite !call_heap, Hme, Hn.
    assert (actions (log (call node (receive_prepare p) w)) =
            actions (log w) ++ ["PrepareReceive"; "PromiseSend"; "PromiseSend"])
      as Hcall.
    { rewrite call_log, Hn. by apply receive_prepare_actions. }
    rewrite (decide_True (P := node = node)) by done.
    destruct (decide (node = self)); simpl;
      rewrite actions_record_log, Hcall, <- app_assoc; done.
  - unfold log_about. rewrite Hme.
    destruct (heap w !! node) as [n|] eqn:Hn.
    + rewrite decide_True by eauto. simpl. by rewrite actions_record_log.
    + rewrite decide_False by (by intros [? ?]). by rewrite app_nil_r.
Qed.

(** X12.  The audit trail of a Prepare broadcast.  When the sender is up,
    [send_prepare] records, for the targets in the order of [nodes], the four
    entries "PrepareReceive", "PromiseSend", "PromiseSend", "PrepareSend" for
    a node that is up (the promise is logged twice, and the sending is logged
    after the reception) and the single entry "PrepareNotSent" for a node
    that is not up; nothing else is recorded. *)
Theorem send_prepare_audit_trail
    (self : nat) (nodes : list nat) (p : Proposal) (w : World) :
  is_up w self = true →
  actions (log (send_prepare self nodes p w)) =
    actions (log w) ++ concat (prepare_trail w <$> nodes).
Proof.
  intros Hself. unfold send_prepare. rewrite Hself.
  assert (∀ w', same_liveness w w' →
            actions (log (foldl (send_prepare_body self p) w' nodes)) =
              actions (log w') ++ concat (prepare_trail w <$> nodes)) as Hfold.
  { induction nodes as [|x xs IH]; intros w' Hsame; simpl.
    - by rewrite app_nil_r.
    - rewrite IH.
      + rewrite send_prepare_body_actions.
        * by rewrite (same_liveness_trail w w'), app_assoc.
        * apply Hsame. apply is_up_Some in Hself as (me & Hme & _). eauto.
      + intros a. destruct (Hsame a) as [Hup Hsome].
        destruct (send_prepare_body_liveness self p w' x a) as [Hup' Hsome'].
        split; [congruence|]. by rewrite Hsome'. }
  apply Hfold. intros a. done.
Qed.

Lemma send_prepare_audit_trail_witness :
  let p := mkProposal 1 1 "value1" in
  let w := call 1 (do_call (CAssignState DOWN)) (make_cluster 1 3 3) in
  actions (log (send_prepare 0 [0; 1; 2]%nat p w)) =
    ["PrepareReceive"; "PromiseSend"; "PromiseSend"; "PrepareSend";
     "PrepareNotSent";
     "PrepareReceive"; "PromiseSend"; "PromiseSend"; "PrepareSend"].
Proof.
  intros p w.
  rewrite (send_prepare_audit_trail 0 [0; 1; 2]%nat p w); [|reflexivity].
  reflexivity.
Defined.

Lemma receive_accept_count (act : string) (p : Proposal) (n : PaxosNode)
    (lg : PaxosLogger) :
  state n = UP →
  act ≠ "ConsensusStateUpdate" →
  count_action act (receive_accept p n lg).2 =
    (count_action act lg + if decide ("AcceptReceive" = act) then 1 else 0)%nat.
Proof.
  intros Hup Hact. unfold receive_accept, reset_consensus_reached, log_state_change.
  rewrite decide_True by done. simpl.
  destruct (acceptance_counts n !! _); simpl; case_bool_decide; simpl;
    rewrite ?count_action_record_log;
    rewrite ?(decide_False (P := "ConsensusStateUpdate" = act)) by done; lia.
Qed.

Lemma send_accept_body_count (act : string) (self : nat) (p : Proposal)
    (w : World) (node : nat) :
  is_Some (heap w !! self) →
  act ≠ "ConsensusStateUpdate" →
  count_action act (log (send_accept_body self p w node)) =
    (count_action act (log w) +
     if is_up w node
     then (if decide ("AcceptSend" = act) then 1 else 0) +
          (if decide ("AcceptReceive" = act) then 1 else 0)
     else 0)%nat.
Proof.
  intros [me Hme] Hact. unfold send_accept_body.
  destruct (is_up w node) eqn:Hnode; [|lia].
  apply is_up_Some in Hnode as (n & Hn & Hup).
  rewrite call_log, log_about_heap, Hn.
  rewrite receive_accept_count by done.
  unfold log_about. rewrite Hme, Hn. simpl.
  rewrite count_action_record_log. lia.
Qed.

(** X13.  The audit trail of an Accept broadcast.  When the sender is up,
    [send_accept] records one "AcceptSend" and one "AcceptReceive" entry for
    every occurrence in [nodes] of a node that is up, and no entry with any
    other action except "ConsensusStateUpdate"; a node that is not up leaves
    no trace. *)
Theorem send_accept_audit_counts
    (act : string) (self : nat) (nodes : list nat) (p : Proposal) (w : World) :
  is_up w self = true →
  act ≠ "ConsensusStateUpdate" →
  count_action act (log (send_accept self nodes p w)) =
    (count_action act (log w) +
     if decide (act = "AcceptSend" ∨ act = "AcceptReceive")
     then length (up_targets w nodes)
     else 0)%nat.
Proof.
  intros Hself Hact. unfold send_accept. rewrite Hself.
  assert (∀ w', same_liveness w w' →
            count_action act (log (foldl (send_accept_body self p) w' nodes)) =
              (count_action act (log w') +
               if decide (act = "AcceptSend" ∨ act = "AcceptReceive")
               then length (up_targets w nodes)
               else 0)%nat) as Hfold.
  { induction nodes as [|x xs IH]; intros w' Hsame; simpl.
    - unfold up_targets. simpl. case_decide; simpl; lia.
    - rewrite IH.
      2:{ intros a. destruct (Hsame a) as [Hup Hsome].
          destruct (send_accept_body_liveness self p w' x a) as [Hup' Hsome'].
          split; [congruence|]. by rewrite Hsome'. }
      rewrite send_accept_body_count; [|apply Hsame|done].
      2:{ apply is_up_Some in Hself as (me & Hme & _). eauto. }
      rewrite (proj1 (Hsame x)). unfold up_targets. rewrite filter_cons.
      destruct (is_up w x) eqn:Hx.
      + rewrite (decide_True (P := true = true)) by done. simpl.
        destruct (decide (act = "AcceptSend")) as [->|Hs];
          [|destruct (decide (act = "AcceptReceive")) as [->|Hr]].
        * rewrite !(decide_True (P := _ ∨ _)) by auto. simpl. lia.
        * rewrite !(decide_True (P := _ ∨ _)) by auto. simpl. lia.
        * rewrite !(decide_False (P := _ ∨ _)) by (intros [?|?]; done).
          rewrite (decide_False (P := "AcceptSend" = act)) by congruence.
          rewrite (decide_False (P := "AcceptReceive" = act)) by congruence. lia.
      + rewrite (decide_False (P := false = true)) by done. lia. }
  apply Hfold. intros a. done.
Qed.

Lemma send_accept_audit_counts_witness :
  let p := mkProposal 1 1 "value1" in
  let w := call 1 (do_call (CAssignState DOWN)) (make_cluster 1 5 5) in
  count_action "AcceptSend" (log (send_accept 0 (seq 0 5) p w)) = 4%nat.
Proof.
  intros p w.
  rewrite (send_accept_audit_counts "AcceptSend" 0 (seq 0 5) p w);
    [reflexivity|reflexivity|discriminate].
Defined.

(** ** Collecting promises and receiving a decision *)

Lemma send_promise_result (p : Proposal) (n : PaxosNode) (lg : PaxosLogger) :
  (send_promise p n lg).2 =
    (if decide (state n = UP)
     then Some (Promise.mk (proposal_number p) (node_id n)
                           (str_opt (last_consensus n))
                           (bool_decide (last_consensus n ≠ None)))
     else None) ∧
  node_id (send_promise p n lg).1.1 = node_id n ∧
  state (send_promise p n lg).1.1 = state n ∧
  last_consensus (send_promise p n lg).1.1 = last_consensus n.
Proof.
  unfold send_promise. case_decide; simpl; [|done].
  split; [|done]. by destruct (last_consensus n).
Qed.

Lemma collect_promises_acc (others : list nat) (p : Proposal) (w w' : World)
    (acc : list Promise.t) :
  (∀ a, promise_of p w' a = promise_of p w a) →
  (foldl (λ '(w, promises) a,
            match heap w !! a with
            | Some n =>
                let '(n, lg, promise) := send_promise p n (log w) in
                ({| heap := <[a := n]> (heap w); log := lg |},
                 match promise with
                 | Some d => promises ++ [d]
                 | None => promises
                 end)
            | None => (w, promises)
            end)
         (w', acc) others).2 = acc ++ omap (promise_of p w) others.
Proof.
  revert w' acc. induction others as [|a l IH]; intros w' acc Hsame; simpl.
  - by rewrite app_nil_r.
  - rewrite <- (Hsame a).
    destruct (heap w' !! a) as [n|] eqn:Hn.
    + assert (promise_of p w' a = (send_promise p n (log w')).2) as ->.
      { unfold promise_of. rewrite Hn.
        by destruct (send_promise_result p n (log w')) as [-> _]. }
      destruct (send_promise_result p n (log w')) as (_ & Hid & Hst & Hlast).
      destruct (send_promise p n (log w')) as [[n' lg'] r]. simpl in *.
      rewrite IH.
      * destruct r; simpl; [|done]. by rewrite <- app_assoc.
      * intros b. rewrite <- Hsame. unfold promise_of. simpl.
        destruct (decide (a = b)) as [->|Hne].
        -- rewrite list_lookup_insert_eq by (by eapply lookup_lt_Some).
           by rewrite Hn, Hid, Hst, Hlast.
        -- by rewrite list_lookup_insert_ne.
    + assert (promise_of p w' a = None) as ->
        by (unfold promise_of; by rewrite Hn).
      by rewrite IH.
Qed.

(** X14.  The promises a driver collects.  Asking the nodes of [others] for
    their promise yields, in the order of [others], one dictionary for each
    node that is up, carrying the proposal number, the id of that node and
    the value it has recorded (the string "None" and a false flag when it
    has recorded none); a node that is not up yields nothing.  The number of
    promises is the number of nodes asked that are up. *)
Theorem collect_promises_spec (others : list nat) (p : Proposal) (w : World) :
  (collect_promises others p w).2 = omap (promise_of p w) others ∧
  length (collect_promises others p w).2 = length (up_targets w others).
Proof.
  assert ((collect_promises others p w).2 = omap (promise_of p w) others) as Heq.
  { unfold collect_promises. by rewrite (collect_promises_acc others p w w []). }
  split; [done|]. rewrite Heq. clear Heq. unfold up_targets.
  induction others as [|a l IH]; [done|]. simpl. rewrite filter_cons.
  assert (is_Some (promise_of p w a) ↔ is_up w a = true) as Hiff.
  { unfold promise_of, is_up. destruct (heap w !! a) as [n|].
    - destruct (decide (state n = UP)) as [Hup|Hup].
      + rewrite (bool_decide_eq_true_2 (state n = UP)) by done. split; eauto.
      + rewrite (bool_decide_eq_false_2 (state n = UP)) by done.
        split; [by intros [? ?]|done].
    - split; [by intros [? ?]|done]. }
  destruct (promise_of p w a) as [d|] eqn:Hd.
  - rewrite decide_True by (apply Hiff; eauto). simpl. f_equal. apply IH.
  - rewrite decide_False; [apply IH|]. intros Hup%Hiff. by destruct Hup.
Qed.

(** X15.  A broadcast overwrites.  On a node that is up, [receive_broadcast]
    records the value of the proposal whatever value was recorded before and
    leaves the counts and the promises alone; it logs "BroadcastReceive",
    preceded by two "ConsensusStateUpdate" entries exactly when the value is
    new.  A node that is not up ignores the broadcast. *)
Theorem receive_broadcast_overwrites
    (p : Proposal) (n : PaxosNode) (lg : PaxosLogger) :
  (receive_broadcast p n lg).1 =
    (if decide (state n = UP)
     then set_consensus_reached
            (if decide (last_consensus n = Some (value p))
             then consensus_reached n else false)
            (set_last_consensus (Some (value p)) n)
     else n) ∧
  actions (receive_broadcast p n lg).2 =
    actions lg ++
    (if decide (state n = UP)
     then (if decide (last_consensus n = Some (value p))
           then []
           else ["ConsensusStateUpdate"; "ConsensusStateUpdate"]) ++
          ["BroadcastReceive"]
     else []).
Proof.
  unfold receive_broadcast, set_consensus, reset_consensus_reached, log_state_change.
  destruct (decide (state n = UP)) as [Hup|Hup]; [|by rewrite app_nil_r].
  destruct (decide (last_consensus n = Some (value p))) as [Heq|Hne].
  - rewrite decide_False by (by intros []). simpl.
    rewrite actions_record_log. split; [|done].
    destruct n; simpl in *. by subst.
  - rewrite decide_True by done. simpl.
    by rewrite !actions_record_log, <- !app_assoc.
Qed.
